(** * FounderOS browser extension: queue polling and page automation

    A shallow embedding of the extension's background worker
    (processQueue, fetchQueuedPosts, markPostAsPublished, postToTwitter,
    postToLinkedIn, autoPostToX, autoPostToLinkedIn, showNotification and
    the PROCESS_NOW / GET_STATUS listener), of the two content scripts
    (postToX, postToLinkedIn, waitForElement, randomDelay) and of the popup
    (loadQueue, postAllNow).

    The JavaScript is asynchronous but single threaded and every call is
    awaited, so a computation is a function from the state of the world to
    an outcome and a new state.  What the browser, the network and the
    visited page answer is not decided by the program: it is read from an
    environment of oracles, one answer per interaction.

    Scope of the model.  The backend's answers follow its schema: the
    [posts] field of the pending endpoint is absent or an array of post
    objects with string fields.  A [fetch] resolves or rejects, and so do
    [chrome.tabs.query] and [chrome.tabs.create]; only an injection may stay
    without an answer. *)

From Stdlib Require Import ZArith NArith List String Ascii Bool Lia.
From Equations Require Import Equations.
Import ListNotations.

Local Open Scope string_scope.
Local Open Scope Z_scope.

(** ** JavaScript string helpers *)

Module Js.

(** A JavaScript string is a sequence of UTF-16 code units, and [length],
    [substring] and [replace] count and cut in code units.  The text of a
    post, which the program cuts and rewrites, is modelled as such a
    sequence.  Strings the program only compares, concatenates and passes
    on (identifiers, platform names, URLs, selectors, dates) stay [string]s. *)
Definition code_unit : Type := N.
Definition text : Type := list code_unit.

(** A literal of the source, all of them ASCII: one code unit per character. *)
Fixpoint lit (s : string) : text :=
  match s with
  | EmptyString => nil
  | String c s' => N_of_ascii c :: lit s'
  end.

(** [s.substring(0, n)]: the first [n] code units, fewer if [s] is shorter. *)
Fixpoint substring0 (n : nat) (s : text) : text :=
  match n, s with
  | S n', u :: s' => u :: substring0 n' s'
  | _, _ => nil
  end.

(** [s.includes(sub)]. *)
Fixpoint includes (s sub : string) : bool :=
  String.prefix sub s
  || match s with
     | EmptyString => false
     | String _ s' => includes s' sub
     end.

Definition newline : code_unit := 10%N.

(** [s.replace(/\n/g, by)]. *)
Fixpoint replace_newlines (by_ : text) (s : text) : text :=
  match s with
  | nil => nil
  | u :: s' =>
      if N.eqb u newline
      then (by_ ++ replace_newlines by_ s')%list
      else u :: replace_newlines by_ s'
  end.

(** Truthiness of an optional string field: [undefined], [null] and the
    empty string are falsy. *)
Definition truthy (v : option string) : bool :=
  match v with
  | None => false
  | Some s => negb (String.eqb s "")
  end.

End Js.

(** ** Data model *)

(** A queue item, as the JSON of the pending endpoint carries it.  A field
    that may be missing is an option. *)
Record Post := mkPost {
  id : string;
  content : option Js.text;
  platform : string;
  scheduled_time : option string
}.

Definition TabId := Z.

(** A DOM node handed out by [document.querySelector].  On an [el_faulty]
    node [click] and [focus] raise (a node that is not an HTMLElement has
    no [click]). *)
Record Element := mkElement {
  el_node : nat;
  el_disabled : bool;
  el_faulty : bool
}.

(** The functions the background worker injects. *)
Inductive PageFunc := AutoPostToX | AutoPostToLinkedIn.

(** Observable effects, in the order they happen.  Console output is not
    recorded. *)
Inductive Event :=
| EvFetch (method url : string)
| EvTabsQuery (patterns : list string)
| EvTabsCreate (url : string) (active : bool)
| EvExecuteScript (tab : TabId) (func : PageFunc) (args : list Js.text)
| EvNotify (iconUrl title : string) (message : Js.text)
| EvSleep (ms : Z)
| EvQuery (selector : string)
| EvClick (e : Element)
| EvFocus (e : Element)
| EvExecCommand (command : string) (value : Js.text)
| EvSetInnerHTML (e : Element) (html : Js.text)
| EvSetTextContent (e : Element) (text : Js.text)
| EvSetValue (e : Element) (value : string)
| EvDispatch (e : Element) (event : string)
| EvNavigate (url : string).

(** ** The environment *)

(** The [posts] field of the body, as the schema of the backend has it:
    absent, or an array of posts. *)
Inductive PostsField :=
| PostsMissing
| PostsArray (posts : list Post).

Inductive Body :=
| BodyUnparsable
| BodyNull
| BodyObject (posts : PostsField).

Inductive FetchReply :=
| NetworkFailure
| HttpResponse (ok : bool) (body : Body).

(** What becomes of a [chrome.scripting.executeScript] call. *)
Inductive InjectFate :=
| InjectRuns
| InjectEmpty
| InjectRejects
| InjectNever.

(** Every interaction with the outside has a serial number (the [tick] of
    the world); the oracles are indexed by it.  A [fetch] resolves or
    rejects, [chrome.tabs.query] and [chrome.tabs.create] resolve or reject,
    an injection may also never come back; [latency] is the time an awaited
    call takes, and what a timer takes beyond its delay. *)
Record Env := mkEnv {
  fetch_reply : nat -> FetchReply;
  confirm_resolves : nat -> bool;
  tabs_query_reply : nat -> option (list TabId);
  tabs_create_reply : nat -> option TabId;
  inject_fate : nat -> InjectFate;
  query_selector : nat -> string -> option Element;
  location_href : nat -> string;
  text_content_empty : nat -> bool;
  random_draw : nat -> N;
  latency : nat -> N;
  date_parse : string -> option Z;
  iso_date : Z -> string;
  local_hhmm : Z -> string
}.

Record World := mkWorld {
  now : Z;
  tick : nat;
  trace : list Event
}.

(** ** Computations *)

Inductive Outcome (A : Type) :=
| Done (a : A)
| Throw (e : string)
| Hang.
Arguments Done {A} a.
Arguments Throw {A} e.
Arguments Hang {A}.

Definition M (A : Type) : Type := World -> Outcome A * World.

Definition ret {A} (a : A) : M A := fun w => (Done a, w).

Definition bind {A B} (m : M A) (k : A -> M B) : M B :=
  fun w =>
    match m w with
    | (Done a, w') => k a w'
    | (Throw e, w') => (Throw e, w')
    | (Hang, w') => (Hang, w')
    end.

Definition throw {A} (e : string) : M A := fun w => (Throw e, w).

Definition hang {A} : M A := fun w => (Hang, w).

(** [try { m } catch (e) { h e }]. *)
Definition try_catch {A} (m : M A) (h : string -> M A) : M A :=
  fun w =>
    match m w with
    | (Throw e, w') => h e w'
    | r => r
    end.

(** [new Promise(async (resolve) => { ... })]: the body resolves the promise
    with its value; when the body throws, nothing ever resolves it. *)
Definition promise {A} (body : M A) : M A :=
  fun w =>
    match body w with
    | (Throw _, w') => (Hang, w')
    | r => r
    end.

Declare Scope js_scope.
Delimit Scope js_scope with js.
Notation "x <- m ;; k" := (bind m (fun x => k))
  (at level 100, m at next level, right associativity) : js_scope.
Notation "m ;; k" := (bind m (fun _ => k))
  (at level 100, right associativity) : js_scope.
Local Open Scope js_scope.

Definition emit (ev : Event) : M unit :=
  fun w => (Done tt, mkWorld (now w) (tick w) (trace w ++ [ev])).

(** A synchronous question to the outside: it gets serial number [tick]. *)
Definition ask : M nat :=
  fun w => (Done (tick w), mkWorld (now w) (S (tick w)) (trace w)).

Section Primitives.

Variable env : Env.

(** An awaited operation: as [ask], and time passes. *)
Definition await : M nat :=
  fun w => (Done (tick w),
            mkWorld (now w + Z.of_N (latency env (tick w))) (S (tick w)) (trace w)).

(** [await new Promise(r => setTimeout(r, ms))]: at least [ms] later. *)
Definition sleep (ms : Z) : M unit :=
  emit (EvSleep ms) ;;
  fun w => (Done tt,
            mkWorld (now w + Z.max 0 ms + Z.of_N (latency env (tick w)))
                    (S (tick w)) (trace w)).

(** [new Date()] / [Date.now()]. *)
Definition date_now : M Z := fun w => (Done (now w), w).

Definition querySelector (sel : string) : M (option Element) :=
  emit (EvQuery sel) ;;
  n <- ask ;;
  ret (query_selector env n sel).

(** [a || b] on two lookups: the second runs only when the first is null. *)
Definition or_else (a b : M (option Element)) : M (option Element) :=
  r <- a ;;
  match r with
  | Some e => ret (Some e)
  | None => b
  end.

Definition method_call (ev : Event) (e : Element) : M unit :=
  if el_faulty e then throw "TypeError" else emit ev.

Definition click (e : Element) : M unit := method_call (EvClick e) e.
Definition focus (e : Element) : M unit := method_call (EvFocus e) e.

Definition href_includes (sub : string) : M bool :=
  n <- ask ;;
  ret (Js.includes (location_href env n) sub).

(** [Math.floor(Math.random() * (max - min + 1)) + min]: for [min <= max]
    an integer from [min] to [max]; which one is the choice of the
    environment, read from [random_draw]. *)
Definition randomDelay (min max : Z) : M Z :=
  n <- ask ;;
  ret (Z.of_N (random_draw env n) mod (max - min + 1) + min).

End Primitives.

(** ** CSS selectors and URLs

    The source writes its selectors in single quotes with double quotes
    inside; [attr n v] is the attribute selector [[n="v"]]. *)

Module Sel.

Definition dq : string := String (Ascii.ascii_of_nat 34) EmptyString.

Definition attr (name value : string) : string :=
  "[" ++ name ++ "=" ++ dq ++ value ++ dq ++ "]".

(* X *)
Definition compose_button := attr "data-testid" "SideNav_NewTweet_Button".
Definition tweet_textarea := attr "data-testid" "tweetTextarea_0".
Definition post_text := attr "aria-label" "Post text".
Definition draft_editor := ".public-DraftEditor-content".
Definition tweet_button := attr "data-testid" "tweetButton".
Definition tweet_button_inline := attr "data-testid" "tweetButtonInline".
Definition schedule_option := attr "data-testid" "scheduleOption".
Definition schedule_confirm_x :=
  attr "data-testid" "scheduledConfirmationPrimaryAction".

(* LinkedIn *)
Definition share_trigger := ".share-box-feed-entry__trigger".
Definition share_new_post := attr "data-control-name" "share.new_post".
Definition tertiary_button := ".artdeco-button--tertiary".
Definition ql_editor := ".ql-editor".
Definition talk_about :=
  attr "data-placeholder" "What do you want to talk about?".
Definition textbox := attr "role" "textbox".
Definition share_primary := ".share-actions__primary-action".
Definition share_post := attr "data-control-name" "share.post".
Definition closed_share_box :=
  "button.share-box-feed-entry__closed-share-box btn".
Definition schedule_post := attr "data-control-name" "schedule_post".
Definition schedule_footer := ".share-box-footer__schedule-btn".
Definition date_input := "input" ++ attr "type" "date".
Definition time_input := "input" ++ attr "type" "time".
Definition schedule_confirm_li := attr "data-control-name" "schedule_confirm".

End Sel.

Definition API_BASE : string := "http://localhost:8000/api/v1".
Definition USER_ID : string := "demo_user".

Definition pending_url : string :=
  API_BASE ++ "/marketing/extension/pending/" ++ USER_ID.

Definition confirm_url (postId : string) : string :=
  API_BASE ++ "/marketing/extension/confirm/" ++ postId.

(** ** The background service worker *)

Module Background.
Section WithEnv.

Variable env : Env.

Definition fetchQueuedPosts : M (list Post) :=
  try_catch
    (emit (EvFetch "GET" pending_url) ;;
     n <- await env ;;
     match fetch_reply env n with
     | NetworkFailure => throw "TypeError: Failed to fetch"
     | HttpResponse false _ => ret []
     | HttpResponse true BodyUnparsable => throw "SyntaxError"
     | HttpResponse true BodyNull => throw "TypeError"
     | HttpResponse true (BodyObject PostsMissing) => ret []
     | HttpResponse true (BodyObject (PostsArray l)) => ret l
     end)
    (fun _ => ret []).

Definition markPostAsPublished (postId : string) : M unit :=
  try_catch
    (emit (EvFetch "POST" (confirm_url postId)) ;;
     n <- await env ;;
     if confirm_resolves env n then ret tt else throw "TypeError: Failed to fetch")
    (fun _ => ret tt).

(** [chrome.notifications.create] reports a failure through
    [runtime.lastError]; the call itself does not throw. *)
Definition showNotification (title : string) (message : Js.text) : M unit :=
  emit (EvNotify "icons/icon128.png" ("FounderOS: " ++ title) message).

(** [post.content.substring(0, 50)]: a TypeError when [content] is missing. *)
Definition content_preview (post : Post) : M Js.text :=
  match content post with
  | Some c => ret (Js.substring0 50 c)
  | None => throw "TypeError"
  end.

(** Runs in the page (injected by postToTwitter). *)
Definition autoPostToX (content : Js.text) : M bool :=
  promise
    (try_catch
       (on_compose <- href_includes env "/compose" ;;
        (if negb on_compose then
           composeBtn <- querySelector env Sel.compose_button ;;
           match composeBtn with
           | Some b => click b ;; sleep env 1500
           | None => ret tt
           end
         else ret tt) ;;
        tweetBox <- or_else
                      (or_else (querySelector env Sel.tweet_textarea)
                               (querySelector env Sel.post_text))
                      (querySelector env Sel.draft_editor) ;;
        match tweetBox with
        | None => ret false
        | Some box =>
            focus box ;;
            sleep env 300 ;;
            emit (EvExecCommand "insertText" content) ;;
            sleep env 500 ;;
            postBtn <- or_else (querySelector env Sel.tweet_button)
                               (querySelector env Sel.tweet_button_inline) ;;
            match postBtn with
            | Some btn =>
                if negb (el_disabled btn) then
                  sleep env 1000 ;;
                  click btn ;;
                  sleep env 2000 ;;
                  ret true
                else ret false
            | None => ret false
            end
        end)
       (fun _ => ret false)).

(** Runs in the page (injected by postToLinkedIn). *)
Definition autoPostToLinkedIn (content : Js.text) : M bool :=
  promise
    (try_catch
       (startPostBtn <- or_else
                          (or_else (querySelector env Sel.share_trigger)
                                   (querySelector env Sel.share_new_post))
                          (querySelector env Sel.tertiary_button) ;;
        match startPostBtn with
        | Some b => click b ;; sleep env 1500
        | None => ret tt
        end ;;
        editor <- or_else
                    (or_else (querySelector env Sel.ql_editor)
                             (querySelector env Sel.talk_about))
                    (querySelector env Sel.textbox) ;;
        match editor with
        | None => ret false
        | Some ed =>
            focus ed ;;
            sleep env 300 ;;
            emit (EvSetInnerHTML ed
                    (Js.lit "<p>"
                     ++ Js.replace_newlines (Js.lit "</p><p>") content
                     ++ Js.lit "</p>")%list) ;;
            emit (EvDispatch ed "input") ;;
            sleep env 1000 ;;
            postBtn <- or_else
                         (or_else (querySelector env Sel.share_primary)
                                  (querySelector env Sel.share_post))
                         (querySelector env Sel.closed_share_box) ;;
            match postBtn with
            | Some btn =>
                if negb (el_disabled btn) then
                  sleep env 1500 ;;
                  click btn ;;
                  sleep env 2000 ;;
                  ret true
                else ret false
            | None => ret false
            end
        end)
       (fun _ => ret false)).

Definition run_page_func (f : PageFunc) (arg : Js.text) : M bool :=
  match f with
  | AutoPostToX => autoPostToX arg
  | AutoPostToLinkedIn => autoPostToLinkedIn arg
  end.

(** [chrome.scripting.executeScript({target, func, args: [arg]})]: one
    injection result per frame, each with the value [func] resolved to. *)
Definition executeScript (tabId : TabId) (f : PageFunc) (arg : Js.text)
  : M (list (option bool)) :=
  emit (EvExecuteScript tabId f [arg]) ;;
  n <- await env ;;
  match inject_fate env n with
  | InjectRuns => r <- run_page_func f arg ;; ret [Some r]
  | InjectEmpty => ret []
  | InjectRejects => throw "Error"
  | InjectNever => hang
  end.

(** [result && result[0] && result[0].result]. *)
Definition injection_succeeded (result : list (option bool)) : bool :=
  match result with
  | Some true :: _ => true
  | _ => false
  end.

Definition tabs_query (patterns : list string) : M (list TabId) :=
  emit (EvTabsQuery patterns) ;;
  n <- await env ;;
  match tabs_query_reply env n with
  | Some tabs => ret tabs
  | None => throw "Error"
  end.

Definition tabs_create (url : string) (active : bool) : M TabId :=
  emit (EvTabsCreate url active) ;;
  n <- await env ;;
  match tabs_create_reply env n with
  | Some t => ret t
  | None => throw "Error"
  end.

(** [args: [post.content]]: a string, once the first line of the poster
    has read [post.content.substring]. *)
Definition content_arg (post : Post) : Js.text :=
  match content post with
  | Some c => c
  | None => Js.lit "undefined"
  end.

Definition postToTwitter (post : Post) : M bool :=
  _ <- content_preview post ;;
  promise
    (tabs <- tabs_query ["*://x.com/*"; "*://twitter.com/*"] ;;
     tabId <- match tabs with
              | tab :: _ => ret tab
              | [] =>
                  tab <- tabs_create "https://x.com/compose/tweet" false ;;
                  sleep env 4000 ;;
                  ret tab
              end ;;
     try_catch
       (result <- executeScript tabId AutoPostToX (content_arg post) ;;
        if injection_succeeded result then
          markPostAsPublished (id post) ;;
          preview <- content_preview post ;;
          showNotification "Posted to X!" (preview ++ Js.lit "...")%list ;;
          ret true
        else ret false)
       (fun _ => ret false)).

Definition postToLinkedIn (post : Post) : M bool :=
  _ <- content_preview post ;;
  promise
    (tabs <- tabs_query ["*://www.linkedin.com/*"] ;;
     tabId <- match tabs with
              | tab :: _ => ret tab
              | [] =>
                  tab <- tabs_create "https://www.linkedin.com/feed/" false ;;
                  sleep env 4000 ;;
                  ret tab
              end ;;
     try_catch
       (result <- executeScript tabId AutoPostToLinkedIn (content_arg post) ;;
        if injection_succeeded result then
          markPostAsPublished (id post) ;;
          preview <- content_preview post ;;
          showNotification "Posted to LinkedIn!" (preview ++ Js.lit "...")%list ;;
          ret true
        else ret false)
       (fun _ => ret false)).

(** [scheduledDate > new Date()] with [scheduledDate = new Date(s)]; an
    invalid date compares false. *)
Definition scheduled_after (s : string) (t_now : Z) : bool :=
  match date_parse env s with
  | Some t => t_now <? t
  | None => false
  end.

(** One iteration of the [for (const post of posts)] loop. *)
Definition process_post (post : Post) : M unit :=
  skip <- (if Js.truthy (scheduled_time post) then
             t_now <- date_now ;;
             ret (scheduled_after
                    (match scheduled_time post with Some s => s | None => "" end)
                    t_now)
           else ret false) ;;
  if skip : bool then ret tt
  else
    (if String.eqb (platform post) "x" then
       _ <- postToTwitter post ;; ret tt
     else if String.eqb (platform post) "linkedin" then
       _ <- postToLinkedIn post ;; ret tt
     else ret tt) ;;
    sleep env 3000.

Fixpoint for_each_post (posts : list Post) : M unit :=
  match posts with
  | [] => ret tt
  | post :: rest => process_post post ;; for_each_post rest
  end.

Definition processQueue : M unit :=
  posts <- fetchQueuedPosts ;;
  if Nat.eqb (List.length posts) 0 then ret tt
  else for_each_post posts.

(** What [sendResponse] is called with. *)
Inductive Response :=
| ProcessResponse (success : bool) (error : option string)
| StatusResponse (posts : list Post) (count : nat).

(** The [chrome.runtime.onMessage] listener; [None] when [sendResponse]
    is never called. *)
Definition onMessage (action : string) (w : World) : option Response * World :=
  if String.eqb action "PROCESS_NOW" then
    match processQueue w with
    | (Done _, w') => (Some (ProcessResponse true None), w')
    | (Throw e, w') => (Some (ProcessResponse false (Some e)), w')
    | (Hang, w') => (None, w')
    end
  else if String.eqb action "GET_STATUS" then
    match fetchQueuedPosts w with
    | (Done posts, w') => (Some (StatusResponse posts (List.length posts)), w')
    | (_, w') => (None, w')
    end
  else (None, w).

(** The [chrome.alarms.onAlarm] listener. *)
Definition onAlarm (name : string) : M unit :=
  if String.eqb name "check_queue" then processQueue else ret tt.

End WithEnv.
End Background.

(** ** Helpers shared by the two content scripts

    content-x.js and the LinkedIn content script carry the same [sleep],
    [randomDelay] and [waitForElement]. *)

Definition inspect {A} (a : A) : {b : A | a = b} := exist _ a eq_refl.

Module Content.
Section WithEnv.

Variable env : Env.

Section Loop.

Variables (selector : string) (timeout start : Z).

(** The [while (Date.now() - start < timeout)] loop of waitForElement:
    look the selector up, return a match, otherwise sleep 100 ms and
    test the clock again. *)
Equations? wait_loop (w : World) : Outcome (option Element) * World
  by wf (Z.to_nat (start + timeout - now w)) lt :=
  wait_loop w with inspect (now w - start <? timeout) := {
    | exist _ false _ => (Done None, w)
    | exist _ true Hlt with inspect (querySelector env selector w) := {
        | exist _ (Done (Some e), w1) _ => (Done (Some e), w1)
        | exist _ (Done None, w1) Hq with inspect (sleep env 100 w1) := {
            | exist _ (Done _, w2) Hs => wait_loop w2
            | exist _ (Throw e, w2) _ => (Throw e, w2)
            | exist _ (Hang, w2) _ => (Hang, w2) }
        | exist _ (Throw e, w1) _ => (Throw e, w1)
        | exist _ (Hang, w1) _ => (Hang, w1) } }.
Proof.
  apply Z.ltb_lt in Hlt. lia.
Qed.

End Loop.

Definition waitForElement (selector : string) (timeout : Z)
  : M (option Element) :=
  start <- date_now ;;
  wait_loop selector timeout start.

End WithEnv.
End Content.

(** ** content-x.js *)

Module ContentX.
Section WithEnv.

Variable env : Env.

(** What [post.content] reads as where the DOM expects a string: a missing
    content reads as the empty string, both as the optional third argument
    of [execCommand] (its default) and when assigned to [textContent]
    (which is nullable). *)
Definition content_text (post : Post) : Js.text :=
  match content post with
  | Some c => c
  | None => nil
  end.

(** Off the compose page the function assigns [window.location.href]: the
    browser replaces the document and unloads this script with it, so the
    timer of the [sleep(2000)] that follows never fires here and the
    function does not go on. *)
Definition postToX (post : Post) : M bool :=
  try_catch
    (on_compose <- href_includes env "/compose" ;;
     (if negb on_compose then
        emit (EvNavigate "https://x.com/compose/tweet") ;;
        hang
      else ret tt) ;;
     textarea <- Content.waitForElement env Sel.tweet_textarea 5000 ;;
     match textarea with
     | None => ret false
     | Some ta =>
         focus ta ;;
         emit (EvExecCommand "insertText" (content_text post)) ;;
         n <- ask ;;
         (if text_content_empty env n then
            emit (EvSetTextContent ta (content_text post)) ;;
            emit (EvDispatch ta "input")
          else ret tt) ;;
         sleep env 500 ;;
         if Js.truthy (scheduled_time post) then
           scheduleBtn <- Content.waitForElement env Sel.schedule_option 2000 ;;
           match scheduleBtn with
           | Some sb =>
               click sb ;;
               sleep env 500 ;;
               confirmBtn <- Content.waitForElement env Sel.schedule_confirm_x 2000 ;;
               match confirmBtn with
               | Some cb => click cb
               | None => ret tt
               end
           | None => ret tt
           end ;;
           ret true
         else
           postBtn <- Content.waitForElement env Sel.tweet_button 2000 ;;
           match postBtn with
           | Some pb =>
               d <- randomDelay env 500 1500 ;;
               sleep env d ;;
               click pb ;;
               sleep env 2000 ;;
               ret true
           | None => ret true
           end
     end)
    (fun _ => ret false).

(** The [POST_CONTENT] listener: [sendResponse({ success })]. *)
Definition onMessage (action : string) (post : Post) : M (option bool) :=
  if String.eqb action "POST_CONTENT" then
    success <- postToX post ;; ret (Some success)
  else ret None.

End WithEnv.
End ContentX.

(** ** The LinkedIn content script *)

Module ContentLinkedIn.
Section WithEnv.

Variable env : Env.

Definition postToLinkedIn (post : Post) : M bool :=
  try_catch
    (startPostBtn <- querySelector env Sel.share_trigger ;;
     match startPostBtn with
     | Some b => click b ;; sleep env 1000
     | None => ret tt
     end ;;
     editor <- Content.waitForElement env Sel.ql_editor 5000 ;;
     match editor with
     | None => ret false
     | Some ed =>
         focus ed ;;
         emit (EvSetInnerHTML ed (Js.lit "")) ;;
         text <- match content post with
                 | Some c => ret (Js.replace_newlines (Js.lit "<br>") c)
                 | None => throw "TypeError"
                 end ;;
         emit (EvSetInnerHTML ed (Js.lit "<p>" ++ text ++ Js.lit "</p>")%list) ;;
         emit (EvDispatch ed "input") ;;
         sleep env 500 ;;
         if Js.truthy (scheduled_time post) then
           scheduleBtn <- or_else (querySelector env Sel.schedule_post)
                                  (querySelector env Sel.schedule_footer) ;;
           match scheduleBtn with
           | Some sb =>
               click sb ;;
               sleep env 500 ;;
               dateInput <- querySelector env Sel.date_input ;;
               timeInput <- querySelector env Sel.time_input ;;
               match dateInput, timeInput with
               | Some di, Some ti =>
                   match date_parse env
                           (match scheduled_time post with
                            | Some s => s
                            | None => ""
                            end) with
                   | Some t =>
                       emit (EvSetValue di (iso_date env t)) ;;
                       emit (EvSetValue ti (local_hhmm env t)) ;;
                       emit (EvDispatch di "change") ;;
                       emit (EvDispatch ti "change")
                   | None => throw "RangeError: Invalid time value"
                   end
               | _, _ => ret tt
               end ;;
               confirmBtn <- querySelector env Sel.schedule_confirm_li ;;
               match confirmBtn with
               | Some cb => click cb
               | None => ret tt
               end
           | None => ret tt
           end ;;
           ret true
         else
           postBtn <- or_else (querySelector env Sel.share_primary)
                              (querySelector env Sel.share_post) ;;
           match postBtn with
           | Some pb =>
               d <- randomDelay env 800 2000 ;;
               sleep env d ;;
               click pb ;;
               sleep env 2000 ;;
               ret true
           | None => ret true
           end
     end)
    (fun _ => ret false).

Definition onMessage (action : string) (post : Post) : M (option bool) :=
  if String.eqb action "POST_CONTENT" then
    success <- postToLinkedIn post ;; ret (Some success)
  else ret None.

End WithEnv.
End ContentLinkedIn.

(** ** popup.js *)

Module Popup.

Inductive Label := PostAllNow | Posting | AllDone | Failed.

(** The popup's [posts] variable, the [postedToday] key of
    [chrome.storage.local], and what the popup shows. *)
Record State := mkState {
  posts : list Post;
  postedToday : option Z;
  queuedCount : nat;
  postedCount : Z;
  postNowBtn_label : Label;
  postNowBtn_disabled : bool
}.

(** [result.postedToday || 0]. *)
Definition or_zero (v : option Z) : Z :=
  match v with
  | Some n => n
  | None => 0
  end.

Definition renderPosts (s : State) : State :=
  mkState (posts s) (postedToday s)
          (List.length (posts s)) (or_zero (postedToday s))
          (postNowBtn_label s)
          (Nat.eqb (List.length (posts s)) 0).

Section WithEnv.

Variable env : Env.

(** [chrome.runtime.sendMessage({action}, callback)]: the background
    listener produces what the callback receives. *)
Definition sendMessage (action : string) (w : World)
  : option Background.Response * World :=
  Background.onMessage env action w.

Definition loadQueue (s : State) (w : World) : State * World :=
  match sendMessage "GET_STATUS" w with
  | (Some (Background.StatusResponse ps _), w') =>
      (renderPosts (mkState ps (postedToday s) (queuedCount s)
                            (postedCount s) (postNowBtn_label s)
                            (postNowBtn_disabled s)), w')
  | (Some (Background.ProcessResponse _ _), w') =>
      (renderPosts (mkState [] (postedToday s) (queuedCount s)
                            (postedCount s) (postNowBtn_label s)
                            (postNowBtn_disabled s)), w')
  | (None, w') => (s, w')
  end.

(** [response && response.success]. *)
Definition reports_success (r : option Background.Response) : bool :=
  match r with
  | Some (Background.ProcessResponse success _) => success
  | _ => false
  end.

(** The click handler of the post-now button, up to and including the
    callbacks it schedules two seconds later. *)
Definition postAllNow (s : State) (w : World) : State * World :=
  let s1 := mkState (posts s) (postedToday s) (queuedCount s)
                    (postedCount s) Posting true in
  let (response, w1) := sendMessage "PROCESS_NOW" w in
  if reports_success response then
    let count := or_zero (postedToday s1) + Z.of_nat (List.length (posts s1)) in
    let s2 := mkState (posts s1) (Some count) (queuedCount s1)
                      count AllDone true in
    let w2 := snd (sleep env 2000 w1) in
    loadQueue (mkState (posts s2) (postedToday s2) (queuedCount s2)
                       (postedCount s2) PostAllNow false) w2
  else
    let w2 := snd (sleep env 2000 w1) in
    (mkState (posts s1) (postedToday s1) (queuedCount s1)
             (postedCount s1) PostAllNow false, w2).

End WithEnv.

End Popup.

(** ** Concrete posts, pages and environments used by the examples *)

Module Examples.

(** The world at the start: 5000 ms on the clock, nothing has happened. *)
Definition w0 : World := mkWorld 5000 0 [].

(** A world whose clock reads 2025-11-01T12:26:40.000Z, for the examples
    with dates. *)
Definition today : World := mkWorld 1762000000000 0 [].

Definition launch_post : Post :=
  mkPost "p1" (Some (Js.lit "Launch day!")) "x" None.

Definition li_post : Post :=
  mkPost "p3" (Some (Js.lit "We are hiring")) "linkedin" None.

Definition past : string := "2020-01-01T00:00:00.000Z".
Definition future : string := "2999-01-01T00:00:00.000Z".

(** One second after the clock of [today]. *)
Definition soon : string := "2025-11-01T12:26:41.000Z".

(** [new Date(s).getTime()] for the dates of the examples, in milliseconds
    since 1970-01-01T00:00:00Z; any other string reads as an invalid date. *)
Definition parse (s : string) : option Z :=
  if String.eqb s past then Some 1577836800000
  else if String.eqb s soon then Some 1762000001000
  else if String.eqb s future then Some 32472144000000
  else None.

(** [date.toISOString().split('T')[0]] for these instants. *)
Definition iso (t : Z) : string :=
  if t =? 1577836800000 then "2020-01-01"
  else if t =? 1762000001000 then "2025-11-01"
  else if t =? 32472144000000 then "2999-01-01"
  else "".

(** [date.toTimeString().slice(0, 5)] for these instants, in a browser
    whose time zone is UTC. *)
Definition hhmm (t : Z) : string :=
  if t =? 1577836800000 then "00:00"
  else if t =? 1762000001000 then "12:26"
  else if t =? 32472144000000 then "00:00"
  else "".

Definition due_scheduled_post : Post :=
  mkPost "p2" (Some (Js.lit "Release notes")) "x" (Some past).

Definition future_post : Post :=
  mkPost "p4" (Some (Js.lit "Next week")) "x" (Some future).

Definition soon_post : Post :=
  mkPost "p5" (Some (Js.lit "In a second")) "x" (Some soon).

Definition textarea : Element := mkElement 1 false false.
Definition submit : Element := mkElement 2 false false.
Definition schedule : Element := mkElement 3 false false.
Definition greyed_submit : Element := mkElement 2 true false.

(** An X compose page with the text area, the post button and the
    schedule option. *)
Definition x_page (sel : string) : option Element :=
  if String.eqb sel Sel.tweet_textarea then Some textarea
  else if String.eqb sel Sel.tweet_button then Some submit
  else if String.eqb sel Sel.schedule_option then Some schedule
  else None.

(** An X compose page whose post button is missing. *)
Definition x_page_no_button (sel : string) : option Element :=
  if String.eqb sel Sel.tweet_textarea then Some textarea else None.

(** An X compose page whose post button is disabled. *)
Definition x_page_greyed (sel : string) : option Element :=
  if String.eqb sel Sel.tweet_textarea then Some textarea
  else if String.eqb sel Sel.tweet_button then Some greyed_submit
  else None.

Definition blank_page (sel : string) : option Element := None.

Definition make_env (reply : FetchReply) (tabs : list TabId)
           (page : string -> option Element) : Env :=
  mkEnv (fun _ => reply) (fun _ => true)
        (fun _ => Some tabs) (fun _ => Some 7)
        (fun _ => InjectRuns) (fun _ => page)
        (fun _ => "https://x.com/compose/tweet") (fun _ => false)
        (fun _ => 0%N) (fun _ => 0%N)
        parse iso hhmm.

Definition queue (l : list Post) : FetchReply :=
  HttpResponse true (BodyObject (PostsArray l)).

Definition backend_down : Env := make_env NetworkFailure [] blank_page.
Definition empty_queue : Env := make_env (queue []) [] blank_page.
Definition launch_env : Env := make_env (queue [launch_post]) [42] x_page.
Definition stale_page_env : Env :=
  make_env (queue [launch_post]) [42] blank_page.
Definition due_scheduled_env : Env :=
  make_env (queue [due_scheduled_post]) [42] x_page.
Definition future_env : Env :=
  make_env (queue [future_post; launch_post]) [42] x_page.
Definition no_button_env : Env := make_env (queue []) [42] x_page_no_button.
Definition greyed_env : Env := make_env (queue []) [42] x_page_greyed.

(** A LinkedIn page with the editor and no post button. *)
Definition li_page_no_button (sel : string) : option Element :=
  if String.eqb sel Sel.ql_editor then Some textarea else None.

Definition li_no_button_env : Env := make_env (queue []) [] li_page_no_button.

(** The text area shows up at the eighth interaction with the page. *)
Definition slow_page (n : nat) (sel : string) : option Element :=
  if Nat.leb 8 n then x_page sel else None.

Definition slow_env : Env :=
  mkEnv (fun _ => queue []) (fun _ => true)
        (fun _ => Some []) (fun _ => Some 7)
        (fun _ => InjectRuns) slow_page
        (fun _ => "https://x.com/compose/tweet") (fun _ => false)
        (fun _ => 0%N) (fun _ => 3%N)
        parse iso hhmm.

(** A LinkedIn share box with the editor and the whole scheduling dialog. *)
Definition li_schedule_page (sel : string) : option Element :=
  if String.eqb sel Sel.ql_editor then Some textarea
  else if String.eqb sel Sel.schedule_post then Some schedule
  else if String.eqb sel Sel.date_input then Some (mkElement 4 false false)
  else if String.eqb sel Sel.time_input then Some (mkElement 5 false false)
  else if String.eqb sel Sel.schedule_confirm_li then Some (mkElement 6 false false)
  else None.

Definition li_schedule_env : Env := make_env (queue []) [] li_schedule_page.

(** A popup showing two queued posts, nothing counted yet. *)
Definition popup0 : Popup.State :=
  Popup.mkState [launch_post; li_post] None 2 0 Popup.PostAllNow false.

End Examples.

(** * Vocabulary of the properties *)

Local Open Scope list_scope.

(** The shape postToTwitter and postToLinkedIn share: the URL patterns of
    the tab, the URL to open, the function to inject and the title of the
    notification are all that differs. *)
Definition post_via_tab (env : Env) (patterns : list string) (open_url : string)
           (f : PageFunc) (title : string) (post : Post) : M bool :=
  _ <- Background.content_preview post ;;
  promise
    (tabs <- Background.tabs_query env patterns ;;
     tabId <- match tabs with
              | tab :: _ => ret tab
              | [] =>
                  tab <- Background.tabs_create env open_url false ;;
                  sleep env 4000 ;;
                  ret tab
              end ;;
     try_catch
       (result <- Background.executeScript env tabId f
                    (Background.content_arg post) ;;
        if Background.injection_succeeded result then
          Background.markPostAsPublished env (id post) ;;
          preview <- Background.content_preview post ;;
          Background.showNotification title (preview ++ Js.lit "...") ;;
          ret true
        else ret false)
       (fun _ => ret false)).

(** [emits P m]: whatever the world, [m] only appends events to the trace,
    and every event it appends satisfies [P]. *)
Definition emits (P : Event -> bool) {A} (m : M A) : Prop :=
  forall w, exists evs, trace (snd (m w)) = trace w ++ evs /\ forallb P evs = true.

Definition any_event (ev : Event) : bool := true.

(** [achieves Q ok m]: [m] only appends events, and when it returns a value
    that passes [ok], the appended events satisfy [Q]. *)
Definition achieves {A} (Q : list Event -> Prop) (ok : A -> bool) (m : M A)
  : Prop :=
  forall w, exists evs,
    trace (snd (m w)) = trace w ++ evs
    /\ match fst (m w) with
       | Done a => ok a = true -> Q evs
       | _ => True
       end.

(** [Q] survives more events before and after. *)
Definition stable (Q : list Event -> Prop) : Prop :=
  forall pre evs post, Q evs -> Q (pre ++ evs ++ post).

(** [yields m R]: every value [m] returns satisfies [R]. *)
Definition yields {A} (m : M A) (R : A -> Prop) : Prop :=
  forall w a, fst (m w) = Done a -> R a.

(** [settles m]: [m] returns or throws, it never hangs. *)
Definition settles {A} (m : M A) : Prop := forall w, fst (m w) <> Hang.

(** Events of the page: lookups, clicks, typing and waiting.  The other
    events belong to the background worker. *)
Definition page_event (ev : Event) : bool :=
  match ev with
  | EvFetch _ _ | EvTabsQuery _ | EvTabsCreate _ _
  | EvExecuteScript _ _ _ | EvNotify _ _ _ => false
  | _ => true
  end.

Definition is_post_request (ev : Event) : bool :=
  match ev with
  | EvFetch m _ => String.eqb m "POST"
  | _ => false
  end.

Definition is_notification (ev : Event) : bool :=
  match ev with
  | EvNotify _ _ _ => true
  | _ => false
  end.

Definition reported (ev : Event) : bool :=
  is_post_request ev || is_notification ev.

Definition is_click (ev : Event) : bool :=
  match ev with
  | EvClick _ => true
  | _ => false
  end.

Definition confirmation (post : Post) : Event :=
  EvFetch "POST" (confirm_url (id post)).

Definition notification (title : string) (c : Js.text) : Event :=
  EvNotify "icons/icon128.png" ("FounderOS: " ++ title)%string
           (Js.substring0 50 c ++ Js.lit "...").

Definition fetch_failed (r : FetchReply) : Prop :=
  r = NetworkFailure \/ exists body, r = HttpResponse false body.

(** The scheduled time is present (a non-empty string), it denotes an
    instant, and that instant is after [t_now]. *)
Definition in_future (env : Env) (post : Post) (t_now : Z) : Prop :=
  exists s t,
    scheduled_time post = Some s /\ s <> "" /\ date_parse env s = Some t
    /\ t_now < t.

(** The scheduled time is absent, or it denotes an instant that is not
    after [t_now]. *)
Definition is_due (env : Env) (post : Post) (t_now : Z) : Prop :=
  scheduled_time post = None
  \/ exists s t,
      scheduled_time post = Some s /\ date_parse env s = Some t /\ t <= t_now.

(** The same post without its scheduled time. *)
Definition unscheduled (p : Post) : Post :=
  mkPost (id p) (content p) (platform p) None.

(** The world after a poll that found nothing and the 100 ms sleep that
    follows it. *)
Definition poll_miss (env : Env) (sel : string) (w : World) : World :=
  snd (sleep env 100 (snd (querySelector env sel w))).

(** The world in which the loop tests the clock for the [n]-th time after
    [n] polls that found nothing. *)
Fixpoint poll_world (env : Env) (sel : string) (n : nat) (w : World) : World :=
  match n with
  | O => w
  | S k => poll_world env sel k (poll_miss env sel w)
  end.

(** How a run of the loop ends after [n] fruitless polls: the next lookup,
    made before the deadline, matches; or the deadline has passed. *)
Definition wait_result (env : Env) (sel : string) (timeout start : Z)
           (w : World) (n : nat) (r : Outcome (option Element) * World) : Prop :=
  let wn := poll_world env sel n w in
  (now wn - start < timeout
   /\ exists e, query_selector env (tick wn) sel = Some e
                /\ r = (Done (Some e), snd (querySelector env sel wn)))
  \/ (timeout <= now wn - start /\ r = (Done None, wn)).

(** What a lookup returns was matched by one of [sels]. *)
Definition found_by (env : Env) (sels : list string) (r : option Element)
  : Prop :=
  forall e, r = Some e ->
            exists n sel, In sel sels /\ query_selector env n sel = Some e.

(** An element matched by one of [sels] satisfies [good], and the event
    [mk] makes of it has happened. *)
Definition acted_on (env : Env) (mk : Element -> Event) (good : Element -> Prop)
           (sels : list string) (evs : list Event) : Prop :=
  exists x n sel,
    In (mk x) evs /\ good x /\ In sel sels /\ query_selector env n sel = Some x.

(** An input was found and focused, and an enabled post button was found
    and clicked. *)
Definition clicked_submit (env : Env) (inputs submits : list string)
           (evs : list Event) : Prop :=
  acted_on env EvFocus (fun _ => True) inputs evs
  /\ acted_on env EvClick (fun x => el_disabled x = false) submits evs.

(** The selectors of the platforms' scheduling controls. *)
Definition schedule_selectors : list string :=
  [Sel.schedule_option; Sel.schedule_confirm_x;
   Sel.schedule_post; Sel.schedule_footer;
   Sel.date_input; Sel.time_input; Sel.schedule_confirm_li].

Definition queries_any (sels : list string) (ev : Event) : bool :=
  match ev with
  | EvQuery s => existsb (String.eqb s) sels
  | _ => false
  end.

Definition avoids (sels : list string) (ev : Event) : bool :=
  negb (queries_any sels ev).

Definition sets_no_value (ev : Event) : bool :=
  match ev with
  | EvSetValue _ _ => false
  | _ => true
  end.

(** ** Further vocabulary *)

Definition is_get (ev : Event) : bool :=
  match ev with
  | EvFetch m _ => String.eqb m "GET"
  | _ => false
  end.

Definition is_query (ev : Event) : bool :=
  match ev with
  | EvQuery _ => true
  | _ => false
  end.

(** The platforms the pass has a poster for. *)
Definition automated (p : Post) : bool :=
  String.eqb (platform p) "x" || String.eqb (platform p) "linkedin".

(** The inter-post delay. *)
Definition is_post_delay (ev : Event) : bool :=
  match ev with
  | EvSleep ms => ms =? 3000
  | _ => false
  end.

(** The same environment with other outcomes for the confirmation request. *)
Definition with_confirm (env : Env) (resolves : nat -> bool) : Env :=
  mkEnv (fetch_reply env) resolves (tabs_query_reply env)
        (tabs_create_reply env) (inject_fate env) (query_selector env)
        (location_href env) (text_content_empty env) (random_draw env)
        (latency env) (date_parse env) (iso_date env) (local_hhmm env).

(** Events of finding, opening and injecting into a tab. *)
Definition is_tab_event (ev : Event) : bool :=
  match ev with
  | EvTabsQuery _ | EvTabsCreate _ _ | EvExecuteScript _ _ _ => true
  | EvSleep ms => ms =? 4000
  | _ => false
  end.

(** How a poster gets its tab, read off the events [evs] of a run: the first
    tab the query returns is injected into; when the query returns none, one
    background tab is opened and 4000 ms pass before the injection; when
    the query or the creation rejects, nothing is injected. *)
Definition tab_discipline (env : Env) (patterns : list string) (url : string)
           (f : PageFunc) (c : Js.text) (w : World) (evs : list Event) : Prop :=
  filter is_tab_event evs
  = match tabs_query_reply env (tick w) with
    | Some (t :: _) => [EvTabsQuery patterns; EvExecuteScript t f [c]]
    | Some [] =>
        match tabs_create_reply env (S (tick w)) with
        | Some t => [EvTabsQuery patterns; EvTabsCreate url false;
                     EvSleep 4000; EvExecuteScript t f [c]]
        | None => [EvTabsQuery patterns; EvTabsCreate url false]
        end
    | None => [EvTabsQuery patterns]
    end.

(** Failures of the tab calls and of the injection of a poster started in
    [w] that leave it without an answer: the query rejects, the creation
    rejects, or the injection never comes back. *)
Definition never_answers (env : Env) (w : World) : Prop :=
  match tabs_query_reply env (tick w) with
  | Some (_ :: _) => inject_fate env (S (tick w)) = InjectNever
  | Some [] =>
      match tabs_create_reply env (S (tick w)) with
      | Some _ => inject_fate env (S (S (S (tick w)))) = InjectNever
      | None => True
      end
  | None => True
  end.

(** The only request allowed is the confirmation of a post of [queue]. *)
Definition confirms_of (queue : list Post) (ev : Event) : bool :=
  match ev with
  | EvFetch m url =>
      String.eqb m "POST"
      && existsb (fun p => String.eqb url (confirm_url (id p))) queue
  | _ => true
  end.

(** [advances m]: the clock does not go back during [m]. *)
Definition advances {A} (m : M A) : Prop := forall w, now w <= now (snd (m w)).

(** What waitForElement does on the page: look [sel] up, wait 100 ms. *)
Definition poll_event (sel : string) (ev : Event) : bool :=
  match ev with
  | EvQuery s => String.eqb s sel
  | EvSleep ms => ms =? 100
  | _ => false
  end.

(** Punctuation and markup, spelled in code units: "...", "<p>", "</p>"
    and "<br>". *)
Definition ellipsis : Js.text := [46; 46; 46]%N.
Definition p_open : Js.text := [60; 112; 62]%N.
Definition p_close : Js.text := [60; 47; 112; 62]%N.
Definition br : Js.text := [60; 98; 114; 62]%N.

(** [s.split('\n')]: the pieces of [s] between newlines. *)
Fixpoint lines (s : Js.text) : list Js.text :=
  match s with
  | [] => [[]]
  | u :: s' =>
      if N.eqb u Js.newline then [] :: lines s'
      else match lines s' with
           | l :: ls => (u :: l) :: ls
           | [] => [[u]]
           end
  end.

(** [parts.join(sep)]. *)
Fixpoint join (sep : Js.text) (parts : list Js.text) : Js.text :=
  match parts with
  | [] => []
  | [l] => l
  | l :: rest => l ++ sep ++ join sep rest
  end.

Definition paragraph (l : Js.text) : Js.text := p_open ++ l ++ p_close.

Definition is_html_write (ev : Event) : bool :=
  match ev with
  | EvSetInnerHTML _ _ => true
  | _ => false
  end.

(** [sub] occurs in [s]. *)
Definition contains (s sub : string) : Prop :=
  exists pre suf, s = (pre ++ sub ++ suf)%string.

(** [logs P m R]: [m] only appends events, and when it returns a value [a],
    [R a l] holds of the appended events [l] that pass [P], taken in the
    order they happened. *)
Definition logs (P : Event -> bool) {A} (m : M A)
           (R : A -> list Event -> Prop) : Prop :=
  forall w, exists evs,
    trace (snd (m w)) = trace w ++ evs
    /\ forall a, fst (m w) = Done a -> R a (filter P evs).

(** The page does not change while the script runs: a selector matches the
    same element, or none, at every lookup. *)
Definition static (env : Env) (page : string -> option Element) : Prop :=
  forall n sel, query_selector env n sel = page sel.

(** What a script does to the controls of a page: the clicks and the
    values it sets. *)
Definition control_action (ev : Event) : bool :=
  match ev with
  | EvClick _ | EvSetValue _ _ => true
  | _ => false
  end.

Definition click_if_found (r : option Element) : list Event :=
  match r with
  | Some e => [EvClick e]
  | None => []
  end.

(** Scheduling on X, as far as the page allows: open the schedule option,
    then confirm. *)
Definition x_scheduling (page : string -> option Element) : list Event :=
  match page Sel.schedule_option with
  | Some sb => EvClick sb :: click_if_found (page Sel.schedule_confirm_x)
  | None => []
  end.

(** Scheduling on LinkedIn, as far as the page allows: open the share box,
    open the schedule dialog, fill the date and the time of day of the
    scheduled instant where both inputs exist, then confirm. *)
Definition li_scheduling (env : Env) (page : string -> option Element)
           (post : Post) : list Event :=
  click_if_found (page Sel.share_trigger)
  ++ match (match page Sel.schedule_post with
            | Some sb => Some sb
            | None => page Sel.schedule_footer
            end) with
     | Some sb =>
         EvClick sb
         :: match page Sel.date_input, page Sel.time_input,
                  scheduled_time post with
            | Some di, Some ti, Some s =>
                match date_parse env s with
                | Some t => [EvSetValue di (iso_date env t);
                             EvSetValue ti (local_hhmm env t)]
                | None => []
                end
            | _, _, _ => []
            end
         ++ click_if_found (page Sel.schedule_confirm_li)
     | None => []
     end.

(** ** Further posts and environments used by the examples *)

Module Scenarios.

(** A queued post whose [content] field is missing. *)
Definition silent_post : Post := mkPost "p7" None "x" None.

Definition silent_env : Env :=
  Examples.make_env (Examples.queue [Examples.launch_post; silent_post])
                    [42] Examples.x_page.

(** A queued post for a platform that has no poster. *)
Definition forum_post : Post :=
  mkPost "p8" (Some (Js.lit "Hello")) "discord" None.

Definition forum_env : Env :=
  Examples.make_env (Examples.queue [forum_post]) [] Examples.blank_page.

(** A browser whose [chrome.tabs.query] rejects. *)
Definition no_tabs_env : Env :=
  mkEnv (fun _ => Examples.queue [Examples.launch_post]) (fun _ => true)
        (fun _ => None) (fun _ => Some 7)
        (fun _ => InjectRuns) (fun _ => Examples.x_page)
        (fun _ => "https://x.com/compose/tweet") (fun _ => false)
        (fun _ => 0%N) (fun _ => 0%N)
        Examples.parse Examples.iso Examples.hhmm.

(** The second post is scheduled one second after the clock of
    [Examples.today]. *)
Definition soon_env : Env :=
  Examples.make_env (Examples.queue [Examples.launch_post; Examples.soon_post])
                    [42] Examples.x_page.

(** A post without content queued before a post that is due. *)
Definition blocked_env : Env :=
  Examples.make_env (Examples.queue [silent_post; Examples.launch_post])
                    [42] Examples.x_page.

(** An X compose page with the text area, the schedule option and the
    confirmation of the schedule dialog. *)
Definition x_schedule_page (sel : string) : option Element :=
  if String.eqb sel Sel.tweet_textarea then Some Examples.textarea
  else if String.eqb sel Sel.schedule_option then Some Examples.schedule
  else if String.eqb sel Sel.schedule_confirm_x then Some (mkElement 6 false false)
  else None.

Definition x_schedule_env : Env :=
  Examples.make_env (Examples.queue []) [42] x_schedule_page.

(** A LinkedIn post whose scheduled time has elapsed. *)
Definition li_due_post : Post :=
  mkPost "p10" (Some (Js.lit "Webinar")) "linkedin" (Some Examples.past).

(** A browser with no tab of the platform open, whose
    [chrome.tabs.create] rejects. *)
Definition no_new_tab_env : Env :=
  mkEnv (fun _ => Examples.queue [Examples.launch_post]) (fun _ => true)
        (fun _ => Some []) (fun _ => None)
        (fun _ => InjectRuns) (fun _ => Examples.x_page)
        (fun _ => "https://x.com/compose/tweet") (fun _ => false)
        (fun _ => 0%N) (fun _ => 0%N)
        Examples.parse Examples.iso Examples.hhmm.

(** The X home page: everything is there, but the address is not the
    compose address. *)
Definition home_env : Env :=
  mkEnv (fun _ => Examples.queue []) (fun _ => true)
        (fun _ => Some [42]) (fun _ => Some 7)
        (fun _ => InjectRuns) (fun _ => Examples.x_page)
        (fun _ => "https://x.com/home") (fun _ => false)
        (fun _ => 0%N) (fun _ => 0%N)
        Examples.parse Examples.iso Examples.hhmm.

(** A backend that answers the GET with an ok status and a page of HTML. *)
Definition html_answer_env : Env :=
  Examples.make_env (HttpResponse true BodyUnparsable) [] Examples.blank_page.

(** A popup showing two queued posts, five counted so far today. *)
Definition popup5 : Popup.State :=
  Popup.mkState [Examples.launch_post; Examples.li_post] (Some 5) 2 5
                Popup.PostAllNow false.

(** A post whose content has sixty code units, sixty times the letter e
    with an acute accent (U+00E9, code unit 233). *)
Definition long_post : Post := mkPost "p9" (Some (repeat 233%N 60)) "x" None.

Definition long_env : Env :=
  Examples.make_env (Examples.queue [long_post]) [42] Examples.x_page.

(** Two lines of text. *)
Definition two_lines : Js.text :=
  Js.lit "Hello" ++ [Js.newline] ++ Js.lit "world".

Definition two_line_post : Post := mkPost "p11" (Some two_lines) "linkedin" None.

(** A LinkedIn page with the editor and the post button. *)
Definition li_page (sel : string) : option Element :=
  if String.eqb sel Sel.ql_editor then Some Examples.textarea
  else if String.eqb sel Sel.share_primary then Some Examples.submit
  else None.

Definition li_env : Env :=
  Examples.make_env (Examples.queue []) [] li_page.

End Scenarios.

(** * Properties *)

(** ** Reasoning about computations *)

Lemma bind_Done {A B} (m : M A) (k : A -> M B) w a w1 :
  m w = (Done a, w1) -> bind m k w = k a w1.
Proof. intros H. unfold bind. rewrite H. reflexivity. Qed.

Lemma bind_assoc {A B C} (m : M A) (k : A -> M B) (h : B -> M C) w :
  bind (bind m k) h w = bind m (fun a => bind (k a) h) w.
Proof.
  unfold bind. destruct (m w) as [[a | e |] w1]; reflexivity.
Qed.

Lemma bind_ext {A B} (m : M A) (k k' : A -> M B) w :
  (forall a w1, k a w1 = k' a w1) -> bind m k w = bind m k' w.
Proof.
  intros H. unfold bind. destruct (m w) as [[a | e |] w1]; [apply H | |]; reflexivity.
Qed.

Section Emits.

Variable P : Event -> bool.

Lemma emits_silent {A} (m : M A) :
  (forall w, trace (snd (m w)) = trace w) -> emits P m.
Proof.
  intros H w. exists []. rewrite H, app_nil_r. split; reflexivity.
Qed.

Lemma emits_ret {A} (a : A) : emits P (ret a).
Proof. apply emits_silent. reflexivity. Qed.

Lemma emits_throw {A} e : emits P (@throw A e).
Proof. apply emits_silent. reflexivity. Qed.

Lemma emits_hang {A} : emits P (@hang A).
Proof. apply emits_silent. reflexivity. Qed.

Lemma emits_ask : emits P ask.
Proof. apply emits_silent. reflexivity. Qed.

Lemma emits_await env : emits P (await env).
Proof. apply emits_silent. reflexivity. Qed.

Lemma emits_date_now : emits P date_now.
Proof. apply emits_silent. reflexivity. Qed.

Lemma emits_emit ev : P ev = true -> emits P (emit ev).
Proof.
  intros H w. exists [ev]. simpl. rewrite H. split; reflexivity.
Qed.

Lemma emits_bind {A B} (m : M A) (k : A -> M B) :
  emits P m -> (forall a, emits P (k a)) -> emits P (bind m k).
Proof.
  intros Hm Hk w. unfold bind.
  destruct (Hm w) as [evs [Ht Hall]].
  destruct (m w) as [[a | e |] w1]; simpl in Ht; simpl.
  - destruct (Hk a w1) as [evs' [Ht' Hall']].
    exists (evs ++ evs'). rewrite Ht', Ht, app_assoc, forallb_app, Hall, Hall'.
    split; reflexivity.
  - exists evs. split; assumption.
  - exists evs. split; assumption.
Qed.

Lemma emits_try_catch {A} (m : M A) (h : string -> M A) :
  emits P m -> (forall e, emits P (h e)) -> emits P (try_catch m h).
Proof.
  intros Hm Hh w. unfold try_catch.
  destruct (Hm w) as [evs [Ht Hall]].
  destruct (m w) as [[a | e |] w1]; simpl in Ht; simpl.
  - exists evs. split; assumption.
  - destruct (Hh e w1) as [evs' [Ht' Hall']].
    exists (evs ++ evs'). rewrite Ht', Ht, app_assoc, forallb_app, Hall, Hall'.
    split; reflexivity.
  - exists evs. split; assumption.
Qed.

Lemma emits_promise {A} (m : M A) : emits P m -> emits P (promise m).
Proof.
  intros Hm w. unfold promise.
  destruct (Hm w) as [evs [Ht Hall]].
  destruct (m w) as [[a | e |] w1]; simpl in Ht; simpl;
    exists evs; split; assumption.
Qed.

Lemma emits_sleep env ms : P (EvSleep ms) = true -> emits P (sleep env ms).
Proof.
  intros H w. exists [EvSleep ms]. simpl. rewrite H. split; reflexivity.
Qed.

Lemma emits_querySelector env sel :
  P (EvQuery sel) = true -> emits P (querySelector env sel).
Proof.
  intros H w. exists [EvQuery sel]. simpl. rewrite H. split; reflexivity.
Qed.

Lemma emits_or_else a b : emits P a -> emits P b -> emits P (or_else a b).
Proof.
  intros Ha Hb. apply emits_bind; [exact Ha |].
  intros [e |]; [apply emits_ret | exact Hb].
Qed.

Lemma emits_click e : P (EvClick e) = true -> emits P (click e).
Proof.
  intros H. unfold click, method_call.
  destruct (el_faulty e); [apply emits_throw | apply emits_emit, H].
Qed.

Lemma emits_focus e : P (EvFocus e) = true -> emits P (focus e).
Proof.
  intros H. unfold focus, method_call.
  destruct (el_faulty e); [apply emits_throw | apply emits_emit, H].
Qed.

Lemma emits_href_includes env sub : emits P (href_includes env sub).
Proof. apply emits_silent. reflexivity. Qed.

Lemma emits_randomDelay env lo hi : emits P (randomDelay env lo hi).
Proof. apply emits_silent. reflexivity. Qed.

End Emits.

(** One step of a proof that a computation emits only [P] events: follow
    the structure of the program. *)
Ltac emits_step :=
  match goal with
  | |- emits _ (bind _ _) => apply emits_bind; [| intros ?]
  | |- emits _ (try_catch _ _) => apply emits_try_catch; [| intros ?]
  | |- emits _ (promise _) => apply emits_promise
  | |- emits _ (or_else _ _) => apply emits_or_else
  | |- emits _ (ret _) => apply emits_ret
  | |- emits _ (throw _) => apply emits_throw
  | |- emits _ hang => apply emits_hang
  | |- emits _ ask => apply emits_ask
  | |- emits _ (await _) => apply emits_await
  | |- emits _ date_now => apply emits_date_now
  | |- emits _ (emit _) => apply emits_emit; reflexivity
  | |- emits _ (sleep _ _) => apply emits_sleep; reflexivity
  | |- emits _ (querySelector _ _) => apply emits_querySelector; reflexivity
  | |- emits _ (click _) => apply emits_click; reflexivity
  | |- emits _ (focus _) => apply emits_focus; reflexivity
  | |- emits _ (href_includes _ _) => apply emits_href_includes
  | |- emits _ (randomDelay _ _ _) => apply emits_randomDelay
  | |- emits _ (match ?x with _ => _ end) => destruct x
  end.

Lemma autoPostToX_page_events env c :
  emits page_event (Background.autoPostToX env c).
Proof. unfold Background.autoPostToX. repeat emits_step. Qed.

Lemma autoPostToLinkedIn_page_events env c :
  emits page_event (Background.autoPostToLinkedIn env c).
Proof. unfold Background.autoPostToLinkedIn. repeat emits_step. Qed.

Lemma run_page_func_page_events env f c :
  emits page_event (Background.run_page_func env f c).
Proof.
  destruct f; [apply autoPostToX_page_events | apply autoPostToLinkedIn_page_events].
Qed.

(** ** The polling loop *)

Lemma querySelector_run env sel w :
  querySelector env sel w
  = (Done (query_selector env (tick w) sel),
     mkWorld (now w) (S (tick w)) (trace w ++ [EvQuery sel])).
Proof. reflexivity. Qed.

Lemma poll_miss_now env sel w :
  now (poll_miss env sel w) = now w + 100 + Z.of_N (latency env (S (tick w))).
Proof. reflexivity. Qed.

Lemma poll_miss_later env sel w : now w + 100 <= now (poll_miss env sel w).
Proof. rewrite poll_miss_now. lia. Qed.

Lemma poll_world_later env sel n w :
  now w + Z.of_nat n * 100 <= now (poll_world env sel n w).
Proof.
  revert w. induction n as [| n IH]; intros w.
  - simpl. lia.
  - cbn [poll_world]. specialize (IH (poll_miss env sel w)).
    pose proof (poll_miss_later env sel w). lia.
Qed.

Lemma poll_world_succ env sel n w :
  poll_world env sel (S n) w = poll_miss env sel (poll_world env sel n w).
Proof.
  revert w. induction n as [| n IH]; intros w; [reflexivity |].
  cbn [poll_world] in *. rewrite IH. reflexivity.
Qed.

Lemma poll_world_step_later env sel n w :
  now (poll_world env sel n w) + 100 <= now (poll_world env sel (S n) w).
Proof. rewrite poll_world_succ. apply poll_miss_later. Qed.

Lemma wait_loop_unfold env sel timeout start w :
  Content.wait_loop env sel timeout start w
  = if now w - start <? timeout then
      match query_selector env (tick w) sel with
      | Some e => (Done (Some e), snd (querySelector env sel w))
      | None => Content.wait_loop env sel timeout start (poll_miss env sel w)
      end
    else (Done None, w).
Proof.
  apply (Content.wait_loop_elim env sel timeout start
           (fun w r =>
              r = if now w - start <? timeout then
                    match query_selector env (tick w) sel with
                    | Some e => (Done (Some e), snd (querySelector env sel w))
                    | None =>
                        Content.wait_loop env sel timeout start
                                          (poll_miss env sel w)
                    end
                  else (Done None, w))); clear w.
  - intros w Hge _. rewrite Hge. reflexivity.
  - intros w e w1 Hq Hlt _ _. rewrite Hlt.
    rewrite querySelector_run in Hq. injection Hq as -> <-. reflexivity.
  - intros w e w1 Hq. discriminate Hq.
  - intros w w1 Hq. discriminate Hq.
  - intros w w1 a w2 Hs Hq Hlt _ _ _ _. rewrite Hlt.
    rewrite querySelector_run in Hq. injection Hq as -> <-.
    unfold poll_miss. rewrite querySelector_run. simpl snd at 2.
    rewrite Hs. reflexivity.
  - intros w w1 e w2 Hs. discriminate Hs.
  - intros w w1 w2 Hs. discriminate Hs.
Qed.

Lemma emits_wait_loop P env sel timeout start :
  P (EvQuery sel) = true -> P (EvSleep 100) = true ->
  emits P (Content.wait_loop env sel timeout start).
Proof.
  intros HQ HS.
  assert (H : forall (m : nat) (w : World),
             (Z.to_nat (start + timeout - now w) < m)%nat ->
             exists evs,
               trace (snd (Content.wait_loop env sel timeout start w))
               = trace w ++ evs
               /\ forallb P evs = true).
  { induction m as [| m IH]; intros w Hm; [lia |].
    rewrite wait_loop_unfold.
    destruct (Z.ltb_spec (now w - start) timeout) as [Hlt | Hge].
    - destruct (query_selector env (tick w) sel) as [e |].
      + exists [EvQuery sel]. simpl. rewrite HQ. split; reflexivity.
      + pose proof (poll_miss_later env sel w) as Hlater.
        destruct (IH (poll_miss env sel w)) as [evs [Ht Hall]]; [lia |].
        exists ([EvQuery sel; EvSleep 100] ++ evs).
        rewrite Ht. simpl. rewrite HQ, HS, Hall, <- !app_assoc.
        split; reflexivity.
    - exists []. simpl. rewrite app_nil_r. split; reflexivity. }
  intros w. apply (H (S (Z.to_nat (start + timeout - now w)))). lia.
Qed.

Lemma emits_waitForElement P env sel timeout :
  P (EvQuery sel) = true -> P (EvSleep 100) = true ->
  emits P (Content.waitForElement env sel timeout).
Proof.
  intros HQ HS. unfold Content.waitForElement.
  apply emits_bind; [apply emits_date_now |].
  intros start. apply emits_wait_loop; assumption.
Qed.

Ltac emits_tac :=
  repeat first
    [ apply emits_waitForElement; reflexivity
    | emits_step ].

(** ** What a computation achieves *)

Section Achieves.

Variable Q : list Event -> Prop.
Hypothesis Q_stable : stable Q.

Lemma stable_before pre evs : Q evs -> Q (pre ++ evs).
Proof.
  intros H. specialize (Q_stable pre evs [] H).
  rewrite app_nil_r in Q_stable. exact Q_stable.
Qed.

Lemma stable_after evs post : Q evs -> Q (evs ++ post).
Proof. intros H. exact (Q_stable [] evs post H). Qed.

(** [m] achieves [Q], whatever follows. *)
Lemma achieves_bind_l {A B} (ok : B -> bool) (m : M A) (k : A -> M B) :
  achieves Q (fun _ => true) m -> (forall a, emits any_event (k a)) ->
  achieves Q ok (bind m k).
Proof.
  intros Hm Hk w. unfold bind.
  destruct (Hm w) as [evs [Ht Hq]].
  destruct (m w) as [[a | e |] w1]; simpl in *.
  - destruct (Hk a w1) as [evs' [Ht' _]].
    exists (evs ++ evs'). rewrite Ht', Ht, app_assoc. split; [reflexivity |].
    destruct (fst (k a w1)); [| exact I | exact I].
    intros _. apply stable_after, Hq. reflexivity.
  - exists evs. split; [exact Ht | exact I].
  - exists evs. split; [exact Ht | exact I].
Qed.

(** What follows [m] achieves [Q], knowing [R] of the value of [m]. *)
Lemma achieves_bind_val {A B} (R : A -> Prop) (ok : B -> bool)
      (m : M A) (k : A -> M B) :
  emits any_event m -> yields m R ->
  (forall a, R a -> achieves Q ok (k a)) ->
  achieves Q ok (bind m k).
Proof.
  intros Hm HR Hk w. unfold bind.
  destruct (Hm w) as [evs [Ht _]].
  specialize (HR w).
  destruct (m w) as [[a | e |] w1]; simpl in *.
  - destruct (Hk a (HR a eq_refl) w1) as [evs' [Ht' Hq]].
    exists (evs ++ evs'). rewrite Ht', Ht, app_assoc. split; [reflexivity |].
    destruct (fst (k a w1)); [| exact I | exact I].
    intros Hok. apply stable_before, Hq, Hok.
  - exists evs. split; [exact Ht | exact I].
  - exists evs. split; [exact Ht | exact I].
Qed.

Lemma achieves_bind_r {A B} (ok : B -> bool) (m : M A) (k : A -> M B) :
  emits any_event m -> (forall a, achieves Q ok (k a)) ->
  achieves Q ok (bind m k).
Proof.
  intros Hm Hk.
  apply (achieves_bind_val (fun _ => True)); [exact Hm | | intros a _; apply Hk].
  intros w a _. exact I.
Qed.

Lemma achieves_try_catch {A} (ok : A -> bool) (m : M A) (h : string -> M A) :
  achieves Q ok m -> (forall e, achieves Q ok (h e)) ->
  achieves Q ok (try_catch m h).
Proof.
  intros Hm Hh w. unfold try_catch.
  destruct (Hm w) as [evs [Ht Hq]].
  destruct (m w) as [[a | e |] w1]; simpl in *.
  - exists evs. split; assumption.
  - destruct (Hh e w1) as [evs' [Ht' Hq']].
    exists (evs ++ evs'). rewrite Ht', Ht, app_assoc. split; [reflexivity |].
    destruct (fst (h e w1)); [| exact I | exact I].
    intros Hok. apply stable_before, Hq', Hok.
  - exists evs. split; [exact Ht | exact I].
Qed.

End Achieves.

Lemma achieves_promise {A} Q (ok : A -> bool) (m : M A) :
  achieves Q ok m -> achieves Q ok (promise m).
Proof.
  intros Hm w. unfold promise.
  destruct (Hm w) as [evs [Ht Hq]].
  destruct (m w) as [[a | e |] w1]; simpl in *;
    exists evs; (split; [exact Ht |]); [exact Hq | exact I | exact I].
Qed.

Lemma achieves_ret_not {A} Q (ok : A -> bool) (a : A) :
  ok a = false -> achieves Q ok (ret a).
Proof.
  intros H w. exists []. simpl. rewrite app_nil_r. split; [reflexivity |].
  rewrite H. discriminate.
Qed.

Lemma achieves_throw {A} Q (ok : A -> bool) e : achieves Q ok (@throw A e).
Proof.
  intros w. exists []. simpl. rewrite app_nil_r. split; [reflexivity | exact I].
Qed.

Lemma achieves_method_call (Q : list Event -> Prop) ev e :
  Q [ev] -> achieves Q (fun _ : unit => true) (method_call ev e).
Proof.
  intros H w. unfold method_call.
  destruct (el_faulty e).
  - exists []. simpl. rewrite app_nil_r. split; [reflexivity | exact I].
  - exists [ev]. split; [reflexivity |]. intros _. exact H.
Qed.

(** Two achievements of one run are about the same events. *)
Lemma achieves_both {A} Q1 Q2 (ok : A -> bool) (m : M A) w a w' :
  achieves Q1 ok m -> achieves Q2 ok m ->
  m w = (Done a, w') -> ok a = true ->
  exists evs, trace w' = trace w ++ evs /\ Q1 evs /\ Q2 evs.
Proof.
  intros H1 H2 Hrun Hok.
  destruct (H1 w) as [evs [Ht Hq1]]. destruct (H2 w) as [evs' [Ht' Hq2]].
  rewrite Hrun in *. simpl in *.
  rewrite Ht in Ht'. apply app_inv_head in Ht'. subst evs'.
  exists evs. split; [exact Ht |]. split; [apply Hq1 | apply Hq2]; exact Hok.
Qed.

Lemma stable_In ev : stable (In ev).
Proof.
  intros pre evs post H. apply in_or_app. right. apply in_or_app. left. exact H.
Qed.

Lemma stable_acted_on env mk good sels : stable (acted_on env mk good sels).
Proof.
  intros pre evs post (x & n & sel & Hin & Hg & Hs & Hq).
  exists x, n, sel. repeat split; try assumption.
  apply (stable_In (mk x)), Hin.
Qed.

Lemma yields_querySelector env sel :
  yields (querySelector env sel) (found_by env [sel]).
Proof.
  intros w r Hr e ->. rewrite querySelector_run in Hr. simpl in Hr.
  injection Hr as Hr. exists (tick w), sel. split; [left; reflexivity | exact Hr].
Qed.

Lemma yields_or_else env a b s1 s2 :
  yields a (found_by env s1) -> yields b (found_by env s2) ->
  yields (or_else a b) (found_by env (s1 ++ s2)).
Proof.
  intros Ha Hb w r Hr e ->. unfold or_else, bind in Hr.
  specialize (Ha w).
  destruct (a w) as [[[x |] | err |] w1]; simpl in *; try discriminate.
  - injection Hr as ->.
    destruct (Ha (Some e) eq_refl e eq_refl) as (n & sel & Hs & Hq).
    exists n, sel. split; [apply in_or_app; left; exact Hs | exact Hq].
  - destruct (Hb w1 (Some e) Hr e eq_refl) as (n & sel & Hs & Hq).
    exists n, sel. split; [apply in_or_app; right; exact Hs | exact Hq].
Qed.

(** The first poll of waitForElement is made at once when the timeout is
    positive. *)
Lemma waitForElement_queries env sel timeout :
  0 < timeout ->
  achieves (In (EvQuery sel)) (fun _ => true)
           (Content.waitForElement env sel timeout).
Proof.
  intros Hpos w.
  unfold Content.waitForElement, bind, date_now.
  rewrite wait_loop_unfold.
  destruct (Z.ltb_spec (now w - now w) timeout) as [_ | Hge]; [| lia].
  destruct (query_selector env (tick w) sel) as [e |].
  - exists [EvQuery sel]. split; [reflexivity |]. intros _. left. reflexivity.
  - destruct (emits_wait_loop any_event env sel timeout (now w) eq_refl eq_refl
                (poll_miss env sel w)) as [evs [Ht _]].
    exists ([EvQuery sel; EvSleep 100] ++ evs).
    rewrite Ht. simpl. rewrite <- !app_assoc. split; [reflexivity |].
    destruct (fst (Content.wait_loop env sel timeout (now w)
                     (poll_miss env sel w))); [| exact I | exact I].
    intros _. left. reflexivity.
Qed.

Lemma first_query_of_or_else env sel b :
  emits any_event b ->
  achieves (In (EvQuery sel)) (fun _ => true) (or_else (querySelector env sel) b).
Proof.
  intros Hb w. unfold or_else, bind. rewrite querySelector_run.
  destruct (query_selector env (tick w) sel) as [e |].
  - exists [EvQuery sel]. split; [reflexivity |]. intros _. left. reflexivity.
  - match goal with |- context [b ?w1] => destruct (Hb w1) as [evs [Ht _]] end.
    exists ([EvQuery sel] ++ evs). rewrite Ht. simpl. rewrite <- app_assoc.
    split; [reflexivity |].
    match goal with |- match ?o with _ => _ end => destruct o end;
      try exact I.
    intros _. left. reflexivity.
Qed.

Ltac yields_tac :=
  repeat first [ apply yields_or_else | apply yields_querySelector ].

(** The element at hand was found by a lookup, so acting on it counts. *)
Ltac acted_tac :=
  match goal with
  | Hf : found_by _ _ (Some ?x) |- acted_on _ _ _ _ [_ ?x] =>
      destruct (Hf x eq_refl) as (?n & ?sel & ?Hs & ?Hq);
      eexists x, _, _;
      (split; [left; reflexivity |]);
      (split; [first [assumption | exact I] |]);
      (split; [eassumption | eassumption])
  end.

Ltac stable_tac := first [ apply stable_acted_on | apply stable_In ].

(** One step of a proof of [achieves]: at a [bind], either its first part
    achieves the goal, or it is a lookup whose result is worth remembering,
    or it merely emits events. *)
Ltac achieves_step :=
  lazymatch goal with
  | |- achieves _ _ (promise _) => apply achieves_promise
  | |- achieves _ _ (try_catch _ _) =>
      apply achieves_try_catch; [stable_tac | | intros ?]
  | |- achieves _ _ (ret _) => apply achieves_ret_not; reflexivity
  | |- achieves _ _ (throw _) => apply achieves_throw
  | |- achieves ?Q _ (bind _ _) =>
      first
        [ apply achieves_bind_l;
          [ stable_tac
          | solve [ apply achieves_method_call; acted_tac
                  | apply waitForElement_queries; lia
                  | apply first_query_of_or_else; emits_tac ]
          | intros ?; solve [emits_tac] ]
        | lazymatch Q with
          | acted_on ?env _ _ _ =>
              eapply (achieves_bind_val _ (stable_acted_on _ _ _ _)
                                        (found_by env _));
              [ solve [emits_tac] | solve [yields_tac] | intros ? ? ]
          end
        | apply achieves_bind_r; [stable_tac | solve [emits_tac] | intros ?] ]
  | |- achieves _ _ (if negb (el_disabled ?x) then _ else _) =>
      destruct (el_disabled x) eqn:?; cbn [negb]
  | |- achieves _ _ (match ?x with _ => _ end) => destruct x
  end.

Ltac achieves_tac := repeat achieves_step.

(** ** Computations that never hang *)

Lemma settles_total {A} (m : M A) :
  (forall w, exists a, fst (m w) = Done a) -> settles m.
Proof. intros H w. destruct (H w) as [a ->]. discriminate. Qed.

Lemma settles_throw {A} e : settles (@throw A e).
Proof. intros w. discriminate. Qed.

Lemma settles_bind {A B} (m : M A) (k : A -> M B) :
  settles m -> (forall a, settles (k a)) -> settles (bind m k).
Proof.
  intros Hm Hk w. unfold bind. specialize (Hm w).
  destruct (m w) as [[a | e |] w1]; simpl in *;
    [apply Hk | discriminate | contradiction].
Qed.

Lemma settles_try_catch {A} (m : M A) (h : string -> M A) :
  settles m -> (forall e, settles (h e)) -> settles (try_catch m h).
Proof.
  intros Hm Hh w. unfold try_catch. specialize (Hm w).
  destruct (m w) as [[a | e |] w1]; simpl in *;
    [discriminate | apply Hh | exact Hm].
Qed.

Lemma settles_method_call ev e : settles (method_call ev e).
Proof. intros w. unfold method_call. destruct (el_faulty e); discriminate. Qed.

Ltac settles_step :=
  lazymatch goal with
  | |- settles (bind _ _) => apply settles_bind; [| intros ?]
  | |- settles (try_catch _ _) => apply settles_try_catch; [| intros ?]
  | |- settles (or_else _ _) => unfold or_else
  | |- settles (throw _) => apply settles_throw
  | |- settles (click _) => apply settles_method_call
  | |- settles (focus _) => apply settles_method_call
  | |- settles (match ?x with _ => _ end) => destruct x
  | |- settles _ => apply settles_total; intros ?; eexists; reflexivity
  end.

(** A page function, wrapped in a try block whose handler resolves, always
    resolves. *)
Lemma page_function_returns {A} (body : M A) (d : A) w :
  settles body ->
  exists a, fst (promise (try_catch body (fun _ => ret d)) w) = Done a.
Proof.
  intros H. specialize (H w). unfold promise, try_catch.
  destruct (body w) as [[a | e |] w1]; simpl in *; eauto.
  contradiction.
Qed.

(** ** What a poster of the background worker reports *)

Lemma filter_none (P Q : Event -> bool) evs :
  (forall ev, P ev = true -> Q ev = false) ->
  forallb P evs = true -> filter Q evs = [].
Proof.
  intros HPQ. induction evs as [| ev evs IH]; simpl; [reflexivity |].
  intros H. apply andb_prop in H as [Hev Hevs].
  rewrite (HPQ ev Hev). apply IH, Hevs.
Qed.

Lemma filter_negb_none (Q : Event -> bool) evs :
  forallb (fun ev => negb (Q ev)) evs = true -> filter Q evs = [].
Proof.
  apply filter_none. intros ev H. apply negb_true_iff in H. exact H.
Qed.

Lemma page_event_not_reported ev : page_event ev = true -> reported ev = false.
Proof. destruct ev; simpl; intros H; try reflexivity; discriminate. Qed.

Lemma postToTwitter_shape env post :
  Background.postToTwitter env post
  = post_via_tab env ["*://x.com/*"; "*://twitter.com/*"]
                 "https://x.com/compose/tweet" AutoPostToX "Posted to X!" post.
Proof. reflexivity. Qed.

Lemma postToLinkedIn_shape env post :
  Background.postToLinkedIn env post
  = post_via_tab env ["*://www.linkedin.com/*"]
                 "https://www.linkedin.com/feed/" AutoPostToLinkedIn
                 "Posted to LinkedIn!" post.
Proof. reflexivity. Qed.

Lemma post_via_tab_reports env patterns url f title post w :
  exists evs,
    trace (snd (post_via_tab env patterns url f title post w))
    = trace w ++ evs
    /\ filter reported evs
       = match fst (post_via_tab env patterns url f title post w),
               content post with
         | Done true, Some c => [confirmation post; notification title c]
         | _, _ => []
         end.
Proof.
  unfold post_via_tab, Background.content_preview, Background.content_arg.
  destruct (content post) as [c |].
  2:{ exists []. simpl. rewrite app_nil_r. split; reflexivity. }
  unfold Background.tabs_query, Background.tabs_create, Background.executeScript.
  unfold Background.markPostAsPublished, Background.showNotification.
  unfold promise, try_catch, bind, emit, await, ret, throw, hang, sleep. simpl.
  destruct (tabs_query_reply env (tick w)) as [[| t tabs] |]; simpl;
    try destruct (tabs_create_reply env (S (tick w))) as [t |]; simpl;
    match goal with
    | |- context [inject_fate env ?n] => destruct (inject_fate env n); simpl
    | _ => idtac
    end;
    match goal with
    | |- context [Background.run_page_func env f c ?w1] =>
        destruct (run_page_func_page_events env f c w1) as [pevs [Hp Hall]];
        apply (filter_none _ reported _ page_event_not_reported) in Hall;
        destruct (Background.run_page_func env f c w1) as [[[] | e |] w2];
        simpl in Hp; simpl;
        try destruct (confirm_resolves env (tick w2)); simpl;
        rewrite ?Hp
    | _ => idtac
    end;
    (eexists; split;
     [ rewrite <- ?app_assoc; reflexivity
     | repeat (rewrite filter_app || simpl); rewrite ?Hall; reflexivity ]).
Qed.

Lemma filter_refine (Q R : Event -> bool) evs :
  (forall ev, Q ev = true -> R ev = true) ->
  filter Q (filter R evs) = filter Q evs.
Proof.
  intros HQR. induction evs as [| ev evs IH]; simpl; [reflexivity |].
  destruct (R ev) eqn:HR; simpl.
  - rewrite IH. reflexivity.
  - destruct (Q ev) eqn:HQ; [| exact IH].
    rewrite (HQR ev HQ) in HR. discriminate.
Qed.

Lemma post_request_reported ev : is_post_request ev = true -> reported ev = true.
Proof. unfold reported. intros ->. reflexivity. Qed.

Lemma notification_reported ev : is_notification ev = true -> reported ev = true.
Proof. unfold reported. intros ->. apply orb_true_r. Qed.

Lemma post_via_tab_needs_content env patterns url f title post w :
  content post = None ->
  post_via_tab env patterns url f title post w = (Throw "TypeError", w).
Proof.
  intros H. unfold post_via_tab, Background.content_preview, Background.content_arg.
  rewrite H. reflexivity.
Qed.

Lemma post_via_tab_confirms env patterns url f title post w :
  exists evs,
    trace (snd (post_via_tab env patterns url f title post w))
    = trace w ++ evs
    /\ filter is_post_request evs
       = match fst (post_via_tab env patterns url f title post w) with
         | Done true => [confirmation post]
         | _ => []
         end.
Proof.
  destruct (post_via_tab_reports env patterns url f title post w)
    as [evs [Ht Hr]].
  exists evs. split; [exact Ht |].
  rewrite <- (filter_refine _ reported evs post_request_reported), Hr.
  destruct (content post) as [c |] eqn:Hc.
  - destruct (fst (post_via_tab env patterns url f title post w))
      as [[] | e |]; reflexivity.
  - rewrite (post_via_tab_needs_content _ _ _ _ _ _ _ Hc). reflexivity.
Qed.

Lemma post_via_tab_notifies env patterns url f title post w w' :
  post_via_tab env patterns url f title post w = (Done true, w') ->
  exists c evs,
    content post = Some c
    /\ trace w' = trace w ++ evs
    /\ filter is_notification evs = [notification title c].
Proof.
  intros Hrun.
  destruct (post_via_tab_reports env patterns url f title post w)
    as [evs [Ht Hr]].
  rewrite Hrun in Ht, Hr. simpl in Ht, Hr.
  destruct (content post) as [c |] eqn:Hc.
  - exists c, evs. split; [reflexivity |]. split; [exact Ht |].
    rewrite <- (filter_refine _ reported evs notification_reported), Hr.
    reflexivity.
  - rewrite (post_via_tab_needs_content _ _ _ _ _ _ _ Hc) in Hrun. discriminate.
Qed.


(** A run on a page where everything is in place: one POST, for "p1". *)
Example confirmation_of_launch_post :
  fst (Background.postToTwitter Examples.launch_env Examples.launch_post
         Examples.w0) = Done true
  /\ filter is_post_request
       (trace (snd (Background.postToTwitter Examples.launch_env
                      Examples.launch_post Examples.w0)))
     = [EvFetch "POST"
          "http://localhost:8000/api/v1/marketing/extension/confirm/p1"].
Proof. split; vm_compute; reflexivity. Qed.

(** ** Notifications *)

Lemma substring0_firstn n (s : Js.text) : Js.substring0 n s = firstn n s.
Proof.
  revert s. induction n as [| n IH]; intros [| u s]; simpl; f_equal; auto.
Qed.

(** C8.  A background poster that returns [true] has raised exactly one
    notification: its icon is fixed, its title is "FounderOS: Posted to X!"
    (the prefix "FounderOS: ", then a message that names X) or
    "FounderOS: Posted to LinkedIn!", and its body is the first 50 UTF-16
    code units of the content, all of it when it has at most 50, followed
    by "...".  So for the content "Launch day!" the body is
    "Launch day!...". *)
Theorem success_notification env post w :
  (forall w',
      Background.postToTwitter env post w = (Done true, w') ->
      exists c evs,
        content post = Some c
        /\ trace w' = trace w ++ evs
        /\ filter is_notification evs
           = [EvNotify "icons/icon128.png" "FounderOS: Posted to X!"
                       (firstn 50 c ++ ellipsis)])
  /\ (forall w',
         Background.postToLinkedIn env post w = (Done true, w') ->
         exists c evs,
           content post = Some c
           /\ trace w' = trace w ++ evs
           /\ filter is_notification evs
              = [EvNotify "icons/icon128.png" "FounderOS: Posted to LinkedIn!"
                          (firstn 50 c ++ ellipsis)])
  /\ "FounderOS: Posted to X!"%string
     = ("FounderOS: " ++ "Posted to " ++ "X" ++ "!")%string
  /\ (forall c : Js.text,
         (List.length c <= 50)%nat ->
         firstn 50 c ++ ellipsis = c ++ ellipsis).
Proof.
  split; [| split; [| split; [reflexivity |]]].
  3:{ intros c Hc. rewrite firstn_all2 by exact Hc. reflexivity. }
  - intros w' H. rewrite postToTwitter_shape in H.
    destruct (post_via_tab_notifies _ _ _ _ _ _ _ _ H) as (c & evs & Hc & Ht & Hn).
    exists c, evs. rewrite <- substring0_firstn. repeat split; assumption.
  - intros w' H. rewrite postToLinkedIn_shape in H.
    destruct (post_via_tab_notifies _ _ _ _ _ _ _ _ H) as (c & evs & Hc & Ht & Hn).
    exists c, evs. rewrite <- substring0_firstn. repeat split; assumption.
Qed.

(** A content of sixty code units, sixty times the letter e with an acute
    accent (code unit 233): the body carries fifty of them. *)
Lemma success_notification_witness :
  exists evs,
    trace (snd (Background.postToTwitter Scenarios.long_env
                  Scenarios.long_post Examples.w0))
    = trace Examples.w0 ++ evs
    /\ filter is_notification evs
       = [EvNotify "icons/icon128.png" "FounderOS: Posted to X!"
                   (repeat 233%N 50 ++ [46; 46; 46]%N)].
Proof.
  destruct (proj1 (success_notification Scenarios.long_env
                     Scenarios.long_post Examples.w0)
                  (snd (Background.postToTwitter Scenarios.long_env
                          Scenarios.long_post Examples.w0)))
    as (c & evs & Hc & Ht & Hn).
  - vm_compute. reflexivity.
  - exists evs. split; [exact Ht |].
    injection Hc as <-. exact Hn.
Defined.

(** The body for "Launch day!", in code units and as a literal. *)
Example notification_of_launch_post :
  content Examples.launch_post
  = Some [76; 97; 117; 110; 99; 104; 32; 100; 97; 121; 33]%N
  /\ filter is_notification
       (trace (snd (Background.postToTwitter Examples.launch_env
                      Examples.launch_post Examples.w0)))
     = [EvNotify "icons/icon128.png" "FounderOS: Posted to X!"
                 [76; 97; 117; 110; 99; 104; 32; 100; 97; 121; 33;
                  46; 46; 46]%N]
  /\ [76; 97; 117; 110; 99; 104; 32; 100; 97; 121; 33; 46; 46; 46]%N
     = Js.lit "Launch day!...".
Proof. repeat split; vm_compute; reflexivity. Qed.

(** ** The queue fetcher *)

Lemma fetchQueuedPosts_run env w :
  Background.fetchQueuedPosts env w
  = (Done match fetch_reply env (tick w) with
          | HttpResponse true (BodyObject (PostsArray l)) => l
          | _ => []
          end,
     mkWorld (now w + Z.of_N (latency env (tick w))) (S (tick w))
             (trace w ++ [EvFetch "GET" pending_url])).
Proof.
  unfold Background.fetchQueuedPosts, try_catch, bind, emit, await, ret, throw.
  simpl.
  destruct (fetch_reply env (tick w)) as [| [] [| | []]]; reflexivity.
Qed.

Lemma fetch_failed_empty env w :
  fetch_failed (fetch_reply env (tick w)) ->
  fst (Background.fetchQueuedPosts env w) = Done [].
Proof.
  intros Hfail. rewrite fetchQueuedPosts_run. simpl.
  destruct Hfail as [-> | [body ->]]; reflexivity.
Qed.

(** C2.  When the GET fails at the network level or answers with a
    non-success status, fetchQueuedPosts returns the empty list (it does
    not raise), and that is the very value it returns for a successful
    answer carrying an empty queue. *)
Theorem fetchQueuedPosts_failure_is_empty env env' w w' :
  fetch_failed (fetch_reply env (tick w)) ->
  fetch_reply env' (tick w') = HttpResponse true (BodyObject (PostsArray [])) ->
  fst (Background.fetchQueuedPosts env w) = Done []
  /\ fst (Background.fetchQueuedPosts env w)
     = fst (Background.fetchQueuedPosts env' w').
Proof.
  intros Hfail Hempty.
  rewrite (fetch_failed_empty env w Hfail). split; [reflexivity |].
  rewrite fetchQueuedPosts_run, Hempty. reflexivity.
Qed.

Lemma fetchQueuedPosts_failure_is_empty_witness :
  fst (Background.fetchQueuedPosts Examples.backend_down Examples.w0) = Done []
  /\ fst (Background.fetchQueuedPosts Examples.backend_down Examples.w0)
     = fst (Background.fetchQueuedPosts Examples.empty_queue Examples.w0).
Proof.
  apply fetchQueuedPosts_failure_is_empty.
  - left. reflexivity.
  - reflexivity.
Defined.

(** ** The orchestration pass *)

Lemma processQueue_after_fetch env w posts w1 :
  Background.fetchQueuedPosts env w = (Done posts, w1) ->
  Background.processQueue env w
  = match posts with
    | [] => (Done tt, w1)
    | _ :: _ => Background.for_each_post env posts w1
    end.
Proof.
  intros Hf. unfold Background.processQueue.
  rewrite (bind_Done _ _ _ _ _ Hf). destruct posts; reflexivity.
Qed.

(** C10.  When the fetch yields the empty list the pass is over as soon as
    the fetch is: it ends in the very world the fetch left, so after the
    GET there is no tab query or creation, no injection, no POST, no
    notification and no delay. *)
Theorem processQueue_empty_queue env w w1 :
  Background.fetchQueuedPosts env w = (Done [], w1) ->
  Background.processQueue env w = (Done tt, w1)
  /\ trace w1 = trace w ++ [EvFetch "GET" pending_url].
Proof.
  intros Hf. split.
  - apply (processQueue_after_fetch env w [] w1 Hf).
  - rewrite fetchQueuedPosts_run in Hf. injection Hf as _ <-. reflexivity.
Qed.

Lemma processQueue_empty_queue_witness :
  Background.processQueue Examples.backend_down Examples.w0
  = (Done tt, mkWorld 5000 1 [EvFetch "GET" pending_url])
  /\ trace (mkWorld 5000 1 [EvFetch "GET" pending_url])
     = trace Examples.w0 ++ [EvFetch "GET" pending_url].
Proof.
  apply (processQueue_empty_queue Examples.backend_down Examples.w0).
  reflexivity.
Defined.

Lemma onMessage_process_now env w :
  Background.onMessage env "PROCESS_NOW" w
  = match Background.processQueue env w with
    | (Done _, w') => (Some (Background.ProcessResponse true None), w')
    | (Throw e, w') => (Some (Background.ProcessResponse false (Some e)), w')
    | (Hang, w') => (None, w')
    end.
Proof. reflexivity. Qed.

(** C9.  Whenever the pass started by a PROCESS_NOW message runs to
    completion, the listener answers [{success: true}]; nothing about what
    the posters returned or what the fetch met enters the answer. *)
Theorem process_now_reports_completion env w w' :
  Background.processQueue env w = (Done tt, w') ->
  Background.onMessage env "PROCESS_NOW" w
  = (Some (Background.ProcessResponse true None), w').
Proof.
  intros H. rewrite onMessage_process_now, H. reflexivity.
Qed.

(** The answer is [{success: true}] exactly when the pass completes. *)
Lemma process_now_success_iff env w :
  fst (Background.onMessage env "PROCESS_NOW" w)
  = Some (Background.ProcessResponse true None)
  <-> fst (Background.processQueue env w) = Done tt.
Proof.
  rewrite onMessage_process_now.
  destruct (Background.processQueue env w) as [[[] | e |] w1]; simpl;
    split; intros H; try reflexivity; discriminate.
Qed.

(** A failed fetch is answered with [{success: true}]. *)
Lemma process_now_after_failed_fetch env w :
  fetch_failed (fetch_reply env (tick w)) ->
  fst (Background.onMessage env "PROCESS_NOW" w)
  = Some (Background.ProcessResponse true None).
Proof.
  intros Hfail. apply process_now_success_iff.
  pose proof (fetch_failed_empty env w Hfail) as Hl.
  destruct (Background.fetchQueuedPosts env w) as [o w1] eqn:Hf.
  simpl in Hl. subst o.
  rewrite (processQueue_after_fetch env w [] w1 Hf). reflexivity.
Qed.

Lemma process_now_reports_completion_witness :
  Background.onMessage Examples.stale_page_env "PROCESS_NOW" Examples.w0
  = (Some (Background.ProcessResponse true None),
     snd (Background.processQueue Examples.stale_page_env Examples.w0))
  /\ filter is_post_request
       (trace (snd (Background.processQueue Examples.stale_page_env Examples.w0)))
     = [].
Proof.
  split.
  - apply process_now_reports_completion. vm_compute. reflexivity.
  - vm_compute. reflexivity.
Defined.

(** ** Scheduled posts *)

Lemma for_each_post_app env pre rest w :
  Background.for_each_post env (pre ++ rest) w
  = bind (Background.for_each_post env pre)
         (fun _ => Background.for_each_post env rest) w.
Proof.
  revert w. induction pre as [| p pre IH]; intros w; simpl.
  - reflexivity.
  - rewrite bind_assoc. apply bind_ext. intros _ w1. apply IH.
Qed.

Lemma for_each_post_reaches env pre post rest w w1 :
  Background.for_each_post env pre w = (Done tt, w1) ->
  Background.for_each_post env (pre ++ post :: rest) w
  = bind (Background.process_post env post)
         (fun _ => Background.for_each_post env rest) w1.
Proof.
  intros Hpre. rewrite for_each_post_app.
  rewrite (bind_Done _ _ _ _ _ Hpre). reflexivity.
Qed.

Lemma truthy_nonempty s : s <> "" -> Js.truthy (Some s) = true.
Proof.
  intros H. simpl. destruct (String.eqb_spec s ""); [contradiction | reflexivity].
Qed.

Lemma process_post_future env post w :
  in_future env post (now w) ->
  Background.process_post env post w = (Done tt, w).
Proof.
  intros (s & t & Hs & Hne & Hp & Hlt).
  unfold Background.process_post, Background.scheduled_after.
  rewrite Hs, (truthy_nonempty s Hne), Hp.
  unfold bind, date_now, ret.
  apply Z.ltb_lt in Hlt. rewrite Hlt. reflexivity.
Qed.

Lemma process_post_due env post w :
  is_due env post (now w) ->
  Background.process_post env post w
  = bind (if String.eqb (platform post) "x" then
            bind (Background.postToTwitter env post) (fun _ => ret tt)
          else if String.eqb (platform post) "linkedin" then
            bind (Background.postToLinkedIn env post) (fun _ => ret tt)
          else ret tt)
         (fun _ => sleep env 3000) w.
Proof.
  intros Hdue. unfold Background.process_post, Background.scheduled_after.
  destruct Hdue as [Hs | (s & t & Hs & Hp & Hle)]; rewrite Hs.
  - reflexivity.
  - rewrite Hp. apply Z.ltb_ge in Hle.
    destruct (Js.truthy (Some s)); [| reflexivity].
    unfold bind at 1. unfold bind at 1. unfold date_now, ret.
    rewrite Hle. reflexivity.
Qed.

(** C3, amended.  Let the pass have fetched a queue and reached one of its
    posts, every post queued before it having been handled without an
    exception and without a poster left pending, the clock reading
    [now w1] at that moment.  If the post's scheduled time is present
    and after that reading, the pass goes on with the rest of the queue
    from the very same world: for this post no poster is invoked, nothing
    is sent and no delay is waited, so it stays pending.  If the scheduled
    time is absent or not after the reading, the post is dispatched on its
    platform (postToTwitter for "x", postToLinkedIn for "linkedin") and the
    inter-post delay follows. *)
Theorem scheduled_posts_wait env w0 w pre post rest w1 :
  Background.fetchQueuedPosts env w0 = (Done (pre ++ post :: rest), w) ->
  Background.for_each_post env pre w = (Done tt, w1) ->
  (in_future env post (now w1) ->
   Background.processQueue env w0 = Background.for_each_post env rest w1)
  /\ (is_due env post (now w1) ->
      Background.processQueue env w0
      = bind (bind (if String.eqb (platform post) "x" then
                      bind (Background.postToTwitter env post) (fun _ => ret tt)
                    else if String.eqb (platform post) "linkedin" then
                      bind (Background.postToLinkedIn env post) (fun _ => ret tt)
                    else ret tt)
                   (fun _ => sleep env 3000))
             (fun _ => Background.for_each_post env rest) w1).
Proof.
  intros Hf Hpre.
  assert (Hq : Background.processQueue env w0
               = bind (Background.process_post env post)
                      (fun _ => Background.for_each_post env rest) w1).
  { rewrite (processQueue_after_fetch env w0 _ w Hf).
    rewrite <- (for_each_post_reaches env pre post rest w w1 Hpre).
    destruct pre; reflexivity. }
  split; intros H; rewrite Hq; unfold bind at 1.
  - rewrite (process_post_future env post w1 H). reflexivity.
  - rewrite (process_post_due env post w1 H). reflexivity.
Qed.

Lemma scheduled_posts_wait_witness :
  (in_future Examples.future_env Examples.future_post 5000
   /\ Background.processQueue Examples.future_env Examples.w0
      = Background.for_each_post Examples.future_env [Examples.launch_post]
          (mkWorld 5000 1 [EvFetch "GET" pending_url]))
  /\ (is_due Examples.future_env Examples.launch_post 5000
      /\ Background.processQueue Examples.future_env Examples.w0
         = bind (bind (if String.eqb (platform Examples.launch_post) "x" then
                         bind (Background.postToTwitter Examples.future_env
                                 Examples.launch_post) (fun _ => ret tt)
                       else if String.eqb (platform Examples.launch_post)
                                          "linkedin" then
                         bind (Background.postToLinkedIn Examples.future_env
                                 Examples.launch_post) (fun _ => ret tt)
                       else ret tt)
                      (fun _ => sleep Examples.future_env 3000))
                (fun _ => Background.for_each_post Examples.future_env [])
                (mkWorld 5000 1 [EvFetch "GET" pending_url])).
Proof.
  assert (Hfut : in_future Examples.future_env Examples.future_post 5000).
  { exists Examples.future, 32472144000000. repeat split; discriminate. }
  assert (Hdue : is_due Examples.future_env Examples.launch_post 5000).
  { left. reflexivity. }
  split; (split; [assumption |]).
  - refine (proj1 (scheduled_posts_wait Examples.future_env Examples.w0
                     (mkWorld 5000 1 [EvFetch "GET" pending_url])
                     [] Examples.future_post [Examples.launch_post]
                     (mkWorld 5000 1 [EvFetch "GET" pending_url]) _ _) Hfut);
      vm_compute; reflexivity.
  - refine (proj2 (scheduled_posts_wait Examples.future_env Examples.w0
                     (mkWorld 5000 1 [EvFetch "GET" pending_url])
                     [Examples.future_post] Examples.launch_post []
                     (mkWorld 5000 1 [EvFetch "GET" pending_url]) _ _) Hdue);
      vm_compute; reflexivity.
Defined.

(** The pass skips a post exactly when its scheduled time is in the future. *)
Lemma process_post_skips_iff env post w :
  Background.process_post env post w = (Done tt, w) /\ in_future env post (now w)
  \/ (~ in_future env post (now w)
      /\ Background.process_post env post w
         = bind (if String.eqb (platform post) "x" then
                   bind (Background.postToTwitter env post) (fun _ => ret tt)
                 else if String.eqb (platform post) "linkedin" then
                   bind (Background.postToLinkedIn env post) (fun _ => ret tt)
                 else ret tt)
                (fun _ => sleep env 3000) w).
Proof.
  destruct (scheduled_time post) as [s |] eqn:Hs.
  2:{ right. split.
      - intros (s & t & Hs' & _). congruence.
      - apply process_post_due. left. exact Hs. }
  destruct (String.eqb_spec s "") as [-> | Hne].
  { right. split.
    - intros (s & t & Hs' & Hne & _). congruence.
    - unfold Background.process_post. rewrite Hs. reflexivity. }
  destruct (date_parse env s) as [t |] eqn:Hp.
  2:{ right. split.
      - intros (s' & t & Hs' & _ & Hp' & _). congruence.
      - unfold Background.process_post, Background.scheduled_after.
        rewrite Hs, (truthy_nonempty s Hne), Hp. reflexivity. }
  destruct (Z.ltb_spec (now w) t) as [Hlt | Hge].
  - left. assert (Hfut : in_future env post (now w)).
    { exists s, t. repeat split; assumption. }
    split; [apply process_post_future, Hfut | exact Hfut].
  - right. split.
    + intros (s' & t' & Hs' & _ & Hp' & Hlt). rewrite Hs in Hs'.
      injection Hs' as <-. rewrite Hp in Hp'. injection Hp' as <-. lia.
    + apply process_post_due. right. exists s, t. repeat split; assumption.
Qed.

(** C3 as stated fails, in both halves.  The clock is read when the loop
    reaches a post, not when the pass starts: a post whose scheduled time is
    one second after the start of the pass, and still ahead when the queue
    has been fetched, is published in that very pass once the post queued
    before it has been handled.  And a post is processed only if the pass
    gets to it: a post without scheduled time queued behind a post without
    content is never handled, the pass stops with the TypeError after the
    GET. *)
Lemma pass_reads_the_clock_per_post_and_may_stop_early :
  (in_future Scenarios.soon_env Examples.soon_post (now Examples.today)
   /\ in_future Scenarios.soon_env Examples.soon_post
        (now (snd (Background.fetchQueuedPosts Scenarios.soon_env
                     Examples.today)))
   /\ fst (Background.fetchQueuedPosts Scenarios.soon_env Examples.today)
      = Done [Examples.launch_post; Examples.soon_post]
   /\ filter is_post_request
        (trace (snd (Background.processQueue Scenarios.soon_env
                       Examples.today)))
      = [EvFetch "POST"
           "http://localhost:8000/api/v1/marketing/extension/confirm/p1";
         EvFetch "POST"
           "http://localhost:8000/api/v1/marketing/extension/confirm/p5"])
  /\ (scheduled_time Examples.launch_post = None
      /\ fst (Background.fetchQueuedPosts Scenarios.blocked_env Examples.today)
         = Done [Scenarios.silent_post; Examples.launch_post]
      /\ fst (Background.processQueue Scenarios.blocked_env Examples.today)
         = Throw "TypeError"
      /\ trace (snd (Background.processQueue Scenarios.blocked_env
                       Examples.today))
         = [EvFetch "GET"
              "http://localhost:8000/api/v1/marketing/extension/pending/demo_user"]).
Proof.
  split.
  - split; [| split].
    + exists Examples.soon, 1762000001000. repeat split; discriminate.
    + exists Examples.soon, 1762000001000. repeat split; discriminate.
    + split; vm_compute; reflexivity.
  - repeat split; vm_compute; reflexivity.
Qed.

(** A post whose scheduled time, 2020-01-01, has elapsed on 2025-11-01 is
    dispatched: the pass confirms it. *)
Example elapsed_post_is_published :
  is_due Examples.due_scheduled_env Examples.due_scheduled_post
         (now (snd (Background.fetchQueuedPosts Examples.due_scheduled_env
                      Examples.today)))
  /\ filter is_post_request
       (trace (snd (Background.processQueue Examples.due_scheduled_env
                      Examples.today)))
     = [EvFetch "POST"
          "http://localhost:8000/api/v1/marketing/extension/confirm/p2"].
Proof.
  split.
  - right. exists Examples.past, 1577836800000. repeat split; discriminate.
  - vm_compute. reflexivity.
Qed.

(** ** waitForElement *)

Lemma wait_loop_polls env sel timeout start :
  forall (m : nat) (w : World),
    (Z.to_nat (start + timeout - now w) < m)%nat ->
    exists n,
      (forall k, (k < n)%nat ->
                 now (poll_world env sel k w) - start < timeout
                 /\ query_selector env (tick (poll_world env sel k w)) sel = None)
      /\ wait_result env sel timeout start w n
           (Content.wait_loop env sel timeout start w).
Proof.
  induction m as [| m IH]; intros w Hm; [lia |].
  rewrite wait_loop_unfold.
  destruct (Z.ltb_spec (now w - start) timeout) as [Hlt | Hge].
  - destruct (query_selector env (tick w) sel) as [e |] eqn:Hq.
    + exists O. split; [intros k Hk; lia |].
      left. split; [exact Hlt |]. exists e. split; [exact Hq | reflexivity].
    + pose proof (poll_miss_later env sel w) as Hlater.
      destruct (IH (poll_miss env sel w)) as [n [Hmiss Hres]]; [lia |].
      exists (S n). split.
      * intros [| k] Hk; [split; assumption |].
        apply Hmiss. lia.
      * exact Hres.
  - exists O. split; [intros k Hk; lia |].
    right. split; [exact Hge | reflexivity].
Qed.

(** C6.  waitForElement returns for every selector and timeout.  It polls
    some number [n] of times without a match, each of these polls made
    before the timeout has elapsed and at least 100 ms after the previous
    one; then either one more poll, still before the timeout, finds an
    element, which is returned, or the timeout has elapsed and null is
    returned. *)
Theorem waitForElement_terminates env sel timeout w :
  exists n,
    (forall k, (k < n)%nat ->
               now (poll_world env sel k w) - now w < timeout
               /\ query_selector env (tick (poll_world env sel k w)) sel = None
               /\ now (poll_world env sel k w) + 100
                  <= now (poll_world env sel (S k) w))
    /\ ((now (poll_world env sel n w) - now w < timeout
         /\ exists e,
             query_selector env (tick (poll_world env sel n w)) sel = Some e
             /\ Content.waitForElement env sel timeout w
                = (Done (Some e),
                   snd (querySelector env sel (poll_world env sel n w))))
        \/ (timeout <= now (poll_world env sel n w) - now w
            /\ Content.waitForElement env sel timeout w
               = (Done None, poll_world env sel n w))).
Proof.
  destruct (wait_loop_polls env sel timeout (now w)
              (S (Z.to_nat (now w + timeout - now w))) w) as [n [Hmiss Hres]];
    [lia |].
  exists n. split.
  - intros k Hk. destruct (Hmiss k Hk) as [Hin Hnone].
    repeat split; [exact Hin | exact Hnone |].
    apply poll_world_step_later.
  - exact Hres.
Qed.

Lemma waitForElement_terminates_witness :
  exists n,
    (forall k, (k < n)%nat ->
               now (poll_world Examples.slow_env Sel.tweet_textarea k Examples.w0)
               - now Examples.w0 < 5000
               /\ query_selector Examples.slow_env
                    (tick (poll_world Examples.slow_env Sel.tweet_textarea k
                             Examples.w0))
                    Sel.tweet_textarea = None
               /\ now (poll_world Examples.slow_env Sel.tweet_textarea k
                         Examples.w0) + 100
                  <= now (poll_world Examples.slow_env Sel.tweet_textarea (S k)
                            Examples.w0))
    /\ ((now (poll_world Examples.slow_env Sel.tweet_textarea n Examples.w0)
         - now Examples.w0 < 5000
         /\ exists e,
             query_selector Examples.slow_env
               (tick (poll_world Examples.slow_env Sel.tweet_textarea n
                        Examples.w0))
               Sel.tweet_textarea = Some e
             /\ Content.waitForElement Examples.slow_env Sel.tweet_textarea 5000
                  Examples.w0
                = (Done (Some e),
                   snd (querySelector Examples.slow_env Sel.tweet_textarea
                          (poll_world Examples.slow_env Sel.tweet_textarea n
                             Examples.w0))))
        \/ (5000 <= now (poll_world Examples.slow_env Sel.tweet_textarea n
                           Examples.w0) - now Examples.w0
            /\ Content.waitForElement Examples.slow_env Sel.tweet_textarea 5000
                 Examples.w0
               = (Done None,
                  poll_world Examples.slow_env Sel.tweet_textarea n
                    Examples.w0))).
Proof.
  exact (waitForElement_terminates Examples.slow_env Sel.tweet_textarea 5000
           Examples.w0).
Defined.

(** The element shows up at the fifth poll, 412 ms after the start. *)
Example waitForElement_finds :
  Content.waitForElement Examples.slow_env Sel.tweet_textarea 5000 Examples.w0
  = (Done (Some Examples.textarea),
     mkWorld 5412 9
             [EvQuery Sel.tweet_textarea; EvSleep 100;
              EvQuery Sel.tweet_textarea; EvSleep 100;
              EvQuery Sel.tweet_textarea; EvSleep 100;
              EvQuery Sel.tweet_textarea; EvSleep 100;
              EvQuery Sel.tweet_textarea]).
Proof. vm_compute. reflexivity. Qed.

(** With nothing to find, the wait ends when the timeout has elapsed. *)
Example waitForElement_gives_up :
  Content.waitForElement Examples.no_button_env Sel.tweet_button 2000 Examples.w0
  = (Done None, poll_world Examples.no_button_env Sel.tweet_button 20 Examples.w0)
  /\ now (poll_world Examples.no_button_env Sel.tweet_button 20 Examples.w0)
     = 7000.
Proof. split; vm_compute; reflexivity. Qed.

(** A timeout that is not positive allows no lookup at all. *)
Lemma waitForElement_no_time env sel timeout w :
  timeout <= 0 -> Content.waitForElement env sel timeout w = (Done None, w).
Proof.
  intros H. unfold Content.waitForElement, bind, date_now.
  rewrite wait_loop_unfold.
  destruct (Z.ltb_spec (now w - now w) timeout); [lia | reflexivity].
Qed.

(** ** The popup's counter *)

Lemma renderPosts_keeps_counter s :
  Popup.postedToday (Popup.renderPosts s) = Popup.postedToday s.
Proof. reflexivity. Qed.

Lemma loadQueue_keeps_counter env s w :
  Popup.postedToday (fst (Popup.loadQueue env s w)) = Popup.postedToday s.
Proof.
  unfold Popup.loadQueue.
  destruct (Popup.sendMessage env "GET_STATUS" w) as [[[] |] w1]; reflexivity.
Qed.

Lemma postAllNow_counter env s w :
  Popup.postedToday (fst (Popup.postAllNow env s w))
  = match fst (Background.processQueue env w) with
    | Done _ =>
        Some (Popup.or_zero (Popup.postedToday s)
              + Z.of_nat (List.length (Popup.posts s)))
    | _ => Popup.postedToday s
    end.
Proof.
  unfold Popup.postAllNow, Popup.sendMessage.
  rewrite onMessage_process_now.
  destruct (Background.processQueue env w) as [[[] | e |] w1]; simpl;
    try reflexivity.
  apply loadQueue_keeps_counter.
Qed.

(** C7.  When the answer to the PROCESS_NOW message of the post-now button
    is [{ success: true }], the stored counter goes up by the number of posts the
    popup holds: a stored value [n] becomes [n] plus that number, and an
    unset counter becomes that number.  Nothing the pass did enters the new
    value.  Reloading the queue and rendering leave the stored counter as
    it is. *)
Theorem postAllNow_counts_displayed_posts env s w err :
  fst (Popup.sendMessage env "PROCESS_NOW" w)
  = Some (Background.ProcessResponse true err) ->
  (forall n,
      Popup.postedToday s = Some n ->
      Popup.postedToday (fst (Popup.postAllNow env s w))
      = Some (n + Z.of_nat (List.length (Popup.posts s))))
  /\ (Popup.postedToday s = None ->
      Popup.postedToday (fst (Popup.postAllNow env s w))
      = Some (Z.of_nat (List.length (Popup.posts s))))
  /\ (forall s1 w1,
         Popup.postedToday (fst (Popup.loadQueue env s1 w1))
         = Popup.postedToday s1)
  /\ (forall s1,
         Popup.postedToday (Popup.renderPosts s1) = Popup.postedToday s1).
Proof.
  intros H.
  assert (Hc : Popup.postedToday (fst (Popup.postAllNow env s w))
               = Some (Popup.or_zero (Popup.postedToday s)
                       + Z.of_nat (List.length (Popup.posts s)))).
  { unfold Popup.postAllNow.
    destruct (Popup.sendMessage env "PROCESS_NOW" w) as [r w1].
    simpl in H. subst r. apply loadQueue_keeps_counter. }
  split; [| split; [| split]].
  - intros n Hn. rewrite Hc, Hn. reflexivity.
  - intros Hn. rewrite Hc, Hn. reflexivity.
  - intros s1 w1. apply loadQueue_keeps_counter.
  - intros s1. reflexivity.
Qed.

(** Nothing is published (the page has no input), and the stored counter
    goes from 5 to 7 for the two posts shown. *)
Lemma postAllNow_counts_displayed_posts_witness :
  filter is_post_request
    (trace (snd (Background.processQueue Examples.stale_page_env Examples.w0)))
  = []
  /\ Popup.postedToday Scenarios.popup5 = Some 5
  /\ List.length (Popup.posts Scenarios.popup5) = 2%nat
  /\ Popup.postedToday
       (fst (Popup.postAllNow Examples.stale_page_env Scenarios.popup5
               Examples.w0))
     = Some 7.
Proof.
  split; [vm_compute; reflexivity |].
  split; [reflexivity |]. split; [reflexivity |].
  refine (proj1 (postAllNow_counts_displayed_posts Examples.stale_page_env
                   Scenarios.popup5 Examples.w0 None _) 5 _).
  - vm_compute. reflexivity.
  - reflexivity.
Defined.

(** From an unset counter the same click stores 2. *)
Example postAllNow_from_unset_counter :
  Popup.postedToday
    (fst (Popup.postAllNow Examples.stale_page_env Examples.popup0 Examples.w0))
  = Some 2.
Proof. vm_compute. reflexivity. Qed.

(** ** What the boolean of a poster means *)

(** The page functions of the background worker always resolve. *)
Lemma autoPostToX_returns env c w :
  exists b, fst (Background.autoPostToX env c w) = Done b.
Proof.
  unfold Background.autoPostToX. apply page_function_returns.
  repeat settles_step.
Qed.

Lemma autoPostToLinkedIn_returns env c w :
  exists b, fst (Background.autoPostToLinkedIn env c w) = Done b.
Proof.
  unfold Background.autoPostToLinkedIn. apply page_function_returns.
  repeat settles_step.
Qed.

Lemma autoPostToX_focuses_input env c :
  achieves (acted_on env EvFocus (fun _ => True)
              [Sel.tweet_textarea; Sel.post_text; Sel.draft_editor])
           (fun b : bool => b) (Background.autoPostToX env c).
Proof. unfold Background.autoPostToX. achieves_tac. Qed.

Lemma autoPostToX_clicks_submit env c :
  achieves (acted_on env EvClick (fun x => el_disabled x = false)
              [Sel.tweet_button; Sel.tweet_button_inline])
           (fun b : bool => b) (Background.autoPostToX env c).
Proof. unfold Background.autoPostToX. achieves_tac. Qed.

Lemma autoPostToLinkedIn_focuses_input env c :
  achieves (acted_on env EvFocus (fun _ => True)
              [Sel.ql_editor; Sel.talk_about; Sel.textbox])
           (fun b : bool => b) (Background.autoPostToLinkedIn env c).
Proof. unfold Background.autoPostToLinkedIn. achieves_tac. Qed.

Lemma autoPostToLinkedIn_clicks_submit env c :
  achieves (acted_on env EvClick (fun x => el_disabled x = false)
              [Sel.share_primary; Sel.share_post; Sel.closed_share_box])
           (fun b : bool => b) (Background.autoPostToLinkedIn env c).
Proof. unfold Background.autoPostToLinkedIn. achieves_tac. Qed.

(** A page function of the background worker resolves to [true] only after
    it focused an element matched by one of its input selectors and clicked
    an enabled element matched by one of its post-button selectors. *)
Lemma autoPostToX_true_clicked env c w w' :
  Background.autoPostToX env c w = (Done true, w') ->
  exists evs,
    trace w' = trace w ++ evs
    /\ clicked_submit env
         [Sel.tweet_textarea; Sel.post_text; Sel.draft_editor]
         [Sel.tweet_button; Sel.tweet_button_inline] evs.
Proof.
  intros Hrun.
  apply (achieves_both _ _ _ _ _ _ _
           (autoPostToX_focuses_input env c)
           (autoPostToX_clicks_submit env c) Hrun eq_refl).
Qed.

Lemma autoPostToLinkedIn_true_clicked env c w w' :
  Background.autoPostToLinkedIn env c w = (Done true, w') ->
  exists evs,
    trace w' = trace w ++ evs
    /\ clicked_submit env
         [Sel.ql_editor; Sel.talk_about; Sel.textbox]
         [Sel.share_primary; Sel.share_post; Sel.closed_share_box] evs.
Proof.
  intros Hrun.
  apply (achieves_both _ _ _ _ _ _ _
           (autoPostToLinkedIn_focuses_input env c)
           (autoPostToLinkedIn_clicks_submit env c) Hrun eq_refl).
Qed.

(** So a missing input, a missing post button and a disabled post button
    all make autoPostToX resolve to [false]. *)
Lemma autoPostToX_false_otherwise env c w :
  (forall n sel,
      In sel [Sel.tweet_textarea; Sel.post_text; Sel.draft_editor] ->
      query_selector env n sel = None)
  \/ (forall n sel,
         In sel [Sel.tweet_button; Sel.tweet_button_inline] ->
         query_selector env n sel = None)
  \/ (forall n sel e,
         In sel [Sel.tweet_button; Sel.tweet_button_inline] ->
         query_selector env n sel = Some e -> el_disabled e = true) ->
  fst (Background.autoPostToX env c w) = Done false.
Proof.
  intros Hmissing.
  destruct (autoPostToX_returns env c w) as [[] Hb]; [exfalso | exact Hb].
  destruct (Background.autoPostToX env c w) as [o w'] eqn:Hrun.
  simpl in Hb. subst o.
  destruct (autoPostToX_true_clicked env c w w' Hrun)
    as (evs & _ & (box & m & s1 & _ & _ & Hs1 & Hq1)
        & (btn & n & s2 & _ & Hd & Hs2 & Hq2)).
  destruct Hmissing as [H | [H | H]].
  - rewrite (H m s1 Hs1) in Hq1. discriminate.
  - rewrite (H n s2 Hs2) in Hq2. discriminate.
  - rewrite (H n s2 btn Hs2 Hq2) in Hd. discriminate.
Qed.

Lemma autoPostToLinkedIn_false_otherwise env c w :
  (forall n sel,
      In sel [Sel.ql_editor; Sel.talk_about; Sel.textbox] ->
      query_selector env n sel = None)
  \/ (forall n sel,
         In sel [Sel.share_primary; Sel.share_post; Sel.closed_share_box] ->
         query_selector env n sel = None)
  \/ (forall n sel e,
         In sel [Sel.share_primary; Sel.share_post; Sel.closed_share_box] ->
         query_selector env n sel = Some e -> el_disabled e = true) ->
  fst (Background.autoPostToLinkedIn env c w) = Done false.
Proof.
  intros Hmissing.
  destruct (autoPostToLinkedIn_returns env c w) as [[] Hb]; [exfalso | exact Hb].
  destruct (Background.autoPostToLinkedIn env c w) as [o w'] eqn:Hrun.
  simpl in Hb. subst o.
  destruct (autoPostToLinkedIn_true_clicked env c w w' Hrun)
    as (evs & _ & (box & m & s1 & _ & _ & Hs1 & Hq1)
        & (btn & n & s2 & _ & Hd & Hs2 & Hq2)).
  destruct Hmissing as [H | [H | H]].
  - rewrite (H m s1 Hs1) in Hq1. discriminate.
  - rewrite (H n s2 Hs2) in Hq2. discriminate.
  - rewrite (H n s2 btn Hs2 Hq2) in Hd. discriminate.
Qed.

(** C4.  The posters of the content scripts break the rule.  On a compose
    page that has the text area and no post button, postToX returns [true]
    without a single click; where the post button is disabled it clicks it
    all the same and returns [true]; the LinkedIn postToLinkedIn returns
    [true] without a click on a page that has the editor and no post
    button. *)
Theorem content_posters_true_without_submit :
  fst (ContentX.postToX Examples.no_button_env Examples.launch_post Examples.w0)
  = Done true
  /\ filter is_click
       (trace (snd (ContentX.postToX Examples.no_button_env
                      Examples.launch_post Examples.w0)))
     = []
  /\ fst (ContentX.postToX Examples.greyed_env Examples.launch_post Examples.w0)
     = Done true
  /\ filter is_click
       (trace (snd (ContentX.postToX Examples.greyed_env
                      Examples.launch_post Examples.w0)))
     = [EvClick Examples.greyed_submit]
  /\ fst (ContentLinkedIn.postToLinkedIn Examples.li_no_button_env
            Examples.li_post Examples.w0)
     = Done true
  /\ filter is_click
       (trace (snd (ContentLinkedIn.postToLinkedIn Examples.li_no_button_env
                      Examples.li_post Examples.w0)))
     = [].
Proof. repeat split; vm_compute; reflexivity. Qed.

(** On the same pages the injected autoPostToX resolves to [false]. *)
Example autoPostToX_false_without_submit :
  fst (Background.autoPostToX Examples.no_button_env (Js.lit "Launch day!")
         Examples.w0)
  = Done false
  /\ fst (Background.autoPostToX Examples.greyed_env (Js.lit "Launch day!")
            Examples.w0)
     = Done false.
Proof. split; vm_compute; reflexivity. Qed.

(** ** What a computation logs *)

Lemma logs_weaken (P : Event -> bool) {A} (m : M A) (R R' : A -> list Event -> Prop) :
  logs P m R -> (forall a l, R a l -> R' a l) -> logs P m R'.
Proof.
  intros Hm HR w. destruct (Hm w) as [evs [Ht Hr]].
  exists evs. split; [exact Ht |]. intros a Ha. apply HR, Hr, Ha.
Qed.

Lemma logs_ret (P : Event -> bool) {A} (a : A) (R : A -> list Event -> Prop) :
  R a [] -> logs P (ret a) R.
Proof.
  intros H w. exists []. simpl. rewrite app_nil_r. split; [reflexivity |].
  intros b Hb. injection Hb as <-. exact H.
Qed.

Lemma logs_throw (P : Event -> bool) {A} e (R : A -> list Event -> Prop) : logs P (@throw A e) R.
Proof.
  intros w. exists []. simpl. rewrite app_nil_r. split; [reflexivity |].
  intros b Hb. discriminate Hb.
Qed.

Lemma logs_emit (P : Event -> bool) ev (R : unit -> list Event -> Prop) :
  R tt (if P ev then [ev] else []) -> logs P (emit ev) R.
Proof.
  intros H w. exists [ev]. split; [reflexivity |].
  intros [] _. simpl. destruct (P ev); exact H.
Qed.

Lemma logs_bind (P : Event -> bool) {A B} (m : M A) (k : A -> M B)
      (R1 : A -> list Event -> Prop) (R : B -> list Event -> Prop) :
  logs P m R1 ->
  (forall a l1, R1 a l1 -> logs P (k a) (fun b l2 => R b (l1 ++ l2))) ->
  logs P (bind m k) R.
Proof.
  intros Hm Hk w. unfold bind.
  destruct (Hm w) as [l1 [Ht1 H1]].
  destruct (m w) as [[a | e |] w1]; simpl in *.
  - destruct (Hk a (filter P l1) (H1 a eq_refl) w1) as [l2 [Ht2 H2]].
    exists (l1 ++ l2). split.
    + rewrite Ht2, Ht1, app_assoc. reflexivity.
    + intros b Hb. rewrite filter_app. apply H2, Hb.
  - exists l1. split; [exact Ht1 |]. intros b Hb. discriminate Hb.
  - exists l1. split; [exact Ht1 |]. intros b Hb. discriminate Hb.
Qed.

(** A computation that emits nothing that passes [P] logs nothing. *)
Lemma logs_silent (P : Event -> bool) {A} (m : M A) :
  emits (fun ev => negb (P ev)) m -> logs P m (fun _ l => l = []).
Proof.
  intros Hm w. destruct (Hm w) as [evs [Ht Hall]].
  exists evs. split; [exact Ht |]. intros a _.
  apply filter_negb_none, Hall.
Qed.

(** [try { m } catch { return false }]: what is known of a run that
    returns [true] is what is known of [m] returning [true]. *)
Lemma logs_caught (P : Event -> bool) (m : M bool) (Q : list Event -> Prop) :
  logs P m (fun b l => b = true -> Q l) ->
  logs P (try_catch m (fun _ => ret false)) (fun b l => b = true -> Q l).
Proof.
  intros Hm w. unfold try_catch. destruct (Hm w) as [evs [Ht Hr]].
  destruct (m w) as [[b | e |] w1]; simpl in *;
    (exists evs; split; [exact Ht |]).
  - exact Hr.
  - intros b Hb. injection Hb as <-. intros H. discriminate H.
  - intros b Hb. discriminate Hb.
Qed.

Lemma logs_promise (P : Event -> bool) {A} (m : M A) (R : A -> list Event -> Prop) :
  logs P m R -> logs P (promise m) R.
Proof.
  intros Hm w. unfold promise. destruct (Hm w) as [evs [Ht Hr]].
  destruct (m w) as [[b | e |] w1]; simpl in *;
    (exists evs; split; [exact Ht |]).
  - exact Hr.
  - intros b Hb. discriminate Hb.
  - intros b Hb. discriminate Hb.
Qed.

(** A method call on an element that has the method happens; on one that
    has not it raises. *)
Lemma logs_method_call (P : Event -> bool) ev e (R : unit -> list Event -> Prop) :
  (el_faulty e = false -> R tt (if P ev then [ev] else [])) ->
  logs P (method_call ev e) R.
Proof.
  intros H. unfold method_call. destruct (el_faulty e).
  - apply logs_throw.
  - apply logs_emit, H. reflexivity.
Qed.

(** The next step logs nothing and its value does not matter. *)
Ltac logs_quiet :=
  eapply logs_bind;
  [ apply logs_silent; emits_tac
  | cbv beta;
    let l := fresh "l" in
    let H := fresh "H" in
    intros ? l H; subst l ].

(** On a page that does not change, a lookup returns what the page holds. *)
Section Static.

Variables (env : Env) (page : string -> option Element) (P : Event -> bool).
Hypothesis page_static : static env page.
Hypothesis query_unlogged : forall sel, P (EvQuery sel) = false.
Hypothesis sleep_unlogged : forall ms, P (EvSleep ms) = false.

Lemma logs_querySelector sel :
  logs P (querySelector env sel) (fun r l => r = page sel /\ l = []).
Proof.
  intros w. rewrite querySelector_run. exists [EvQuery sel].
  split; [reflexivity |]. intros r Hr. injection Hr as <-.
  simpl. rewrite query_unlogged, page_static. split; reflexivity.
Qed.

Lemma logs_or_else a b ra rb :
  logs P a (fun r l => r = ra /\ l = []) ->
  logs P b (fun r l => r = rb /\ l = []) ->
  logs P (or_else a b)
       (fun r l => r = match ra with Some e => Some e | None => rb end
                   /\ l = []).
Proof.
  intros Ha Hb. unfold or_else.
  eapply logs_bind; [exact Ha |].
  intros r l1 [-> ->]. destruct ra as [e |].
  - apply logs_ret. split; reflexivity.
  - exact Hb.
Qed.

Lemma wait_loop_static sel timeout start w r w' :
  Content.wait_loop env sel timeout start w = (Done r, w') ->
  page sel = None -> r = None.
Proof.
  intros Hrun Hnone.
  destruct (wait_loop_polls env sel timeout start
              (S (Z.to_nat (start + timeout - now w))) w) as [n [_ Hres]];
    [lia |].
  destruct Hres as [[_ [e [Hq _]]] | [_ Heq]].
  - rewrite page_static, Hnone in Hq. discriminate Hq.
  - rewrite Hrun in Heq. injection Heq as -> _. reflexivity.
Qed.

Lemma logs_waitForElement sel timeout :
  0 < timeout ->
  logs P (Content.waitForElement env sel timeout)
       (fun r l => r = page sel /\ l = []).
Proof.
  intros Hpos w.
  destruct (emits_waitForElement (fun ev => negb (P ev)) env sel timeout)
    with (w := w) as [evs [Ht Hall]].
  { rewrite query_unlogged. reflexivity. }
  { rewrite sleep_unlogged. reflexivity. }
  exists evs. split; [exact Ht |]. intros r Hr.
  split; [| apply filter_negb_none, Hall].
  unfold Content.waitForElement, bind, date_now in Hr.
  destruct (page sel) as [e |] eqn:Hp.
  - rewrite wait_loop_unfold in Hr.
    destruct (Z.ltb_spec (now w - now w) timeout) as [_ | Hge]; [| lia].
    rewrite page_static, Hp in Hr. injection Hr as <-. reflexivity.
  - destruct (Content.wait_loop env sel timeout (now w) w) as [o w'] eqn:Hrun.
    simpl in Hr. subst o.
    apply (wait_loop_static sel timeout (now w) w r w' Hrun Hp).
Qed.

End Static.

(** ** Scheduling *)

Lemma posters_ignore_schedule env post :
  Background.postToTwitter env (unscheduled post)
  = Background.postToTwitter env post
  /\ Background.postToLinkedIn env (unscheduled post)
     = Background.postToLinkedIn env post.
Proof. split; reflexivity. Qed.

Lemma unscheduled_is_due env post t_now : is_due env (unscheduled post) t_now.
Proof. left. reflexivity. Qed.

Lemma process_post_due_unscheduled env post w :
  is_due env post (now w) ->
  Background.process_post env post w
  = Background.process_post env (unscheduled post) w.
Proof.
  intros Hdue.
  rewrite (process_post_due env post w Hdue).
  rewrite (process_post_due env (unscheduled post) w
             (unscheduled_is_due env post (now w))).
  reflexivity.
Qed.

Lemma run_page_func_avoids_schedule env f c :
  emits (avoids schedule_selectors) (Background.run_page_func env f c).
Proof.
  destruct f; simpl.
  - unfold Background.autoPostToX. emits_tac.
  - unfold Background.autoPostToLinkedIn. emits_tac.
Qed.

Lemma content_postToX_sets_no_value env post :
  emits sets_no_value (ContentX.postToX env post).
Proof. unfold ContentX.postToX. emits_tac. Qed.

Lemma content_postToX_scheduled_avoids_submit env post :
  Js.truthy (scheduled_time post) = true ->
  emits (avoids [Sel.tweet_button; Sel.tweet_button_inline])
        (ContentX.postToX env post).
Proof.
  intros H. unfold ContentX.postToX. rewrite H. emits_tac.
Qed.

Lemma content_postToLinkedIn_scheduled_avoids_submit env post :
  Js.truthy (scheduled_time post) = true ->
  emits (avoids [Sel.share_primary; Sel.share_post; Sel.closed_share_box])
        (ContentLinkedIn.postToLinkedIn env post).
Proof.
  intros H. unfold ContentLinkedIn.postToLinkedIn. rewrite H. emits_tac.
Qed.

Lemma content_postToX_scheduled_looks_for_schedule env post :
  Js.truthy (scheduled_time post) = true ->
  achieves (In (EvQuery Sel.schedule_option)) (fun b : bool => b)
           (ContentX.postToX env post).
Proof.
  intros H. unfold ContentX.postToX. rewrite H. achieves_tac.
Qed.

Lemma content_postToLinkedIn_scheduled_looks_for_schedule env post :
  Js.truthy (scheduled_time post) = true ->
  achieves (In (EvQuery Sel.schedule_post)) (fun b : bool => b)
           (ContentLinkedIn.postToLinkedIn env post).
Proof.
  intros H. unfold ContentLinkedIn.postToLinkedIn. rewrite H. achieves_tac.
Qed.

(** What the content scripts do to the controls of a page that does not
    change, for a post with a scheduled time. *)
Lemma content_postToX_scheduling env page post :
  static env page ->
  Js.truthy (scheduled_time post) = true ->
  logs control_action (ContentX.postToX env post)
       (fun b l => b = true -> l = x_scheduling page).
Proof.
  intros Hst Hs. unfold ContentX.postToX, x_scheduling. rewrite Hs.
  apply logs_caught.
  logs_quiet. logs_quiet.
  eapply logs_bind;
    [apply (logs_waitForElement env page control_action Hst);
     (reflexivity || lia) |].
  cbv beta. intros r l1 [-> ->].
  destruct (page Sel.tweet_textarea) as [ta |];
    [| apply logs_ret; intros H; discriminate H].
  logs_quiet. logs_quiet. logs_quiet. logs_quiet. logs_quiet.
  eapply logs_bind;
    [apply (logs_waitForElement env page control_action Hst);
     (reflexivity || lia) |].
  cbv beta. intros r l1 [-> ->].
  destruct (page Sel.schedule_option) as [sb |].
  2:{ logs_quiet. apply logs_ret. reflexivity. }
  apply (logs_bind _ _ _
           (fun _ l => l = EvClick sb
                           :: click_if_found (page Sel.schedule_confirm_x))).
  2:{ intros [] l1 ->. apply logs_ret. intros _.
      rewrite app_nil_r. reflexivity. }
  apply (logs_bind _ _ _ (fun _ l => l = [EvClick sb]));
    [apply logs_method_call; intros _; reflexivity |].
  intros [] l1 ->.
  logs_quiet.
  eapply logs_bind;
    [apply (logs_waitForElement env page control_action Hst);
     (reflexivity || lia) |].
  cbv beta. intros r l1 [-> ->].
  destruct (page Sel.schedule_confirm_x) as [cb |].
  - apply logs_method_call. intros _. reflexivity.
  - apply logs_ret. reflexivity.
Qed.

Lemma logs_click_if_found (r : option Element) :
  logs control_action
       (match r with Some e => click e | None => ret tt end)
       (fun _ l => l = click_if_found r).
Proof.
  destruct r as [e |]; simpl.
  - apply logs_method_call. intros _. reflexivity.
  - apply logs_ret. reflexivity.
Qed.

Lemma logs_click_and_wait env (r : option Element) ms :
  logs control_action
       (match r with Some e => bind (click e) (fun _ => sleep env ms)
                | None => ret tt end)
       (fun _ l => l = click_if_found r).
Proof.
  destruct r as [e |]; simpl.
  - apply (logs_bind _ _ _ (fun _ l => l = [EvClick e]));
      [apply logs_method_call; intros _; reflexivity |].
    intros [] l1 ->.
    eapply logs_weaken; [apply logs_silent; emits_tac |].
    cbv beta. intros _ l ->. reflexivity.
  - apply logs_ret. reflexivity.
Qed.

Lemma content_postToLinkedIn_scheduling env page post :
  static env page ->
  Js.truthy (scheduled_time post) = true ->
  logs control_action (ContentLinkedIn.postToLinkedIn env post)
       (fun b l => b = true -> l = li_scheduling env page post).
Proof.
  intros Hst Hs. unfold ContentLinkedIn.postToLinkedIn, li_scheduling.
  rewrite Hs.
  destruct (scheduled_time post) as [s |]; [clear Hs | discriminate Hs].
  apply logs_caught.
  eapply logs_bind;
    [apply (logs_querySelector env page control_action Hst); reflexivity |].
  cbv beta. intros r l1 [-> ->].
  eapply logs_bind; [apply logs_click_and_wait |].
  cbv beta. intros [] l1 ->.
  eapply logs_bind;
    [apply (logs_waitForElement env page control_action Hst);
     (reflexivity || lia) |].
  cbv beta. intros r l1 [-> ->].
  destruct (page Sel.ql_editor) as [ed |];
    [| apply logs_ret; intros H; discriminate H].
  logs_quiet. logs_quiet. logs_quiet. logs_quiet. logs_quiet. logs_quiet.
  eapply logs_bind;
    [apply logs_or_else;
     apply (logs_querySelector env page control_action Hst); reflexivity |].
  cbv beta. intros r l1 [-> ->].
  destruct (match page Sel.schedule_post with
            | Some e => Some e
            | None => page Sel.schedule_footer
            end) as [sb |].
  2:{ logs_quiet. apply logs_ret. intros _. rewrite ?app_nil_r. reflexivity. }
  apply (logs_bind _ _ _
           (fun _ l =>
              l = EvClick sb
                  :: match page Sel.date_input, page Sel.time_input with
                     | Some di, Some ti =>
                         match date_parse env s with
                         | Some t => [EvSetValue di (iso_date env t);
                                      EvSetValue ti (local_hhmm env t)]
                         | None => []
                         end
                     | _, _ => []
                     end
                  ++ click_if_found (page Sel.schedule_confirm_li))).
  2:{ intros [] l1 ->. apply logs_ret. intros _.
      rewrite ?app_nil_r. simpl. 
      destruct (page Sel.date_input), (page Sel.time_input); reflexivity. }
  apply (logs_bind _ _ _ (fun _ l => l = [EvClick sb]));
    [apply logs_method_call; intros _; reflexivity |].
  intros [] l1 ->.
  logs_quiet.
  eapply logs_bind;
    [apply (logs_querySelector env page control_action Hst); reflexivity |].
  cbv beta. intros r l1 [-> ->].
  eapply logs_bind;
    [apply (logs_querySelector env page control_action Hst); reflexivity |].
  cbv beta. intros r l1 [-> ->].
  apply (logs_bind _ _ _
           (fun _ l =>
              l = match page Sel.date_input, page Sel.time_input with
                  | Some di, Some ti =>
                      match date_parse env s with
                      | Some t => [EvSetValue di (iso_date env t);
                                   EvSetValue ti (local_hhmm env t)]
                      | None => []
                      end
                  | _, _ => []
                  end)).
  { destruct (page Sel.date_input) as [di |];
      [| apply logs_ret; reflexivity].
    destruct (page Sel.time_input) as [ti |];
      [| apply logs_ret; reflexivity].
    destruct (date_parse env s) as [t |]; [| apply logs_throw].
    apply (logs_bind _ _ _ (fun _ l => l = [EvSetValue di (iso_date env t)]));
      [apply logs_emit; reflexivity |].
    intros [] l1 ->.
    apply (logs_bind _ _ _ (fun _ l => l = [EvSetValue ti (local_hhmm env t)]));
      [apply logs_emit; reflexivity |].
    intros [] l1 ->.
    eapply logs_weaken; [apply logs_silent; emits_tac |].
    cbv beta. intros _ l ->. reflexivity. }
  intros [] l1 ->.
  eapply logs_bind;
    [apply (logs_querySelector env page control_action Hst); reflexivity |].
  cbv beta. intros r l1 [-> ->].
  eapply logs_weaken; [apply logs_click_if_found |].
  cbv beta. intros _ l ->. simpl. rewrite ?app_nil_r. reflexivity.
Qed.




(** The content scripts at work on a post with a scheduled time, on pages
    that offer the whole schedule dialog: both return [true] after these
    clicks and entries. *)
Example content_scripts_on_scheduled_posts :
  fst (ContentX.postToX Scenarios.x_schedule_env Examples.due_scheduled_post
         Examples.w0) = Done true
  /\ filter control_action
       (trace (snd (ContentX.postToX Scenarios.x_schedule_env
                      Examples.due_scheduled_post Examples.w0)))
     = [EvClick Examples.schedule; EvClick (mkElement 6 false false)]
  /\ fst (ContentLinkedIn.postToLinkedIn Examples.li_schedule_env
            Scenarios.li_due_post Examples.w0) = Done true
  /\ filter control_action
       (trace (snd (ContentLinkedIn.postToLinkedIn Examples.li_schedule_env
                      Scenarios.li_due_post Examples.w0)))
     = [EvClick Examples.schedule;
        EvSetValue (mkElement 4 false false) "2020-01-01";
        EvSetValue (mkElement 5 false false) "00:00";
        EvClick (mkElement 6 false false)].
Proof. repeat split; vm_compute; reflexivity. Qed.

(** * Further properties of the extension *)

(** ** The fetcher on malformed answers *)

(** X1.  fetchQueuedPosts makes exactly one request, the GET of
    http://localhost:8000/api/v1/marketing/extension/pending/demo_user, and
    never raises.  An answer with an ok status whose body is not JSON, is
    the JSON value [null] or is an object without a [posts] field gives the
    empty list, as a failed request does: the SyntaxError and the TypeError
    are caught.  An ok answer whose [posts] field is an array of posts
    gives that array. *)
Theorem fetchQueuedPosts_malformed_answers env w :
  trace (snd (Background.fetchQueuedPosts env w))
  = trace w
    ++ [EvFetch "GET"
          "http://localhost:8000/api/v1/marketing/extension/pending/demo_user"]
  /\ (forall e, fst (Background.fetchQueuedPosts env w) <> Throw e)
  /\ (fetch_reply env (tick w) = HttpResponse true BodyUnparsable
      \/ fetch_reply env (tick w) = HttpResponse true BodyNull
      \/ fetch_reply env (tick w) = HttpResponse true (BodyObject PostsMissing) ->
      fst (Background.fetchQueuedPosts env w) = Done [])
  /\ (forall l,
         fetch_reply env (tick w) = HttpResponse true (BodyObject (PostsArray l)) ->
         fst (Background.fetchQueuedPosts env w) = Done l).
Proof.
  rewrite fetchQueuedPosts_run. simpl.
  split; [reflexivity |]. split; [intros e; discriminate |]. split.
  - intros [-> | [-> | ->]]; reflexivity.
  - intros l ->. reflexivity.
Qed.

Lemma fetchQueuedPosts_malformed_answers_witness :
  fst (Background.fetchQueuedPosts Scenarios.html_answer_env Examples.w0)
  = Done []
  /\ fst (Background.fetchQueuedPosts Examples.launch_env Examples.w0)
     = Done [Examples.launch_post].
Proof.
  split.
  - refine (proj1 (proj2 (proj2 (fetchQueuedPosts_malformed_answers
                                   Scenarios.html_answer_env Examples.w0))) _).
    left. reflexivity.
  - refine (proj2 (proj2 (proj2 (fetchQueuedPosts_malformed_answers
                                   Examples.launch_env Examples.w0)))
                  [Examples.launch_post] _).
    reflexivity.
Defined.

(** ** A post without content *)

(** X2.  A due post for X or LinkedIn without a [content] field makes the
    poster raise a TypeError at its first line, before any tab is touched.
    processQueue does not catch it: the pass stops there, the posts after it
    are not handled, and a PROCESS_NOW request is answered with
    [{ success: false, error }]. *)
Theorem missing_content_aborts_pass env w0 w pre post rest w1 :
  Background.fetchQueuedPosts env w0 = (Done (pre ++ post :: rest), w) ->
  Background.for_each_post env pre w = (Done tt, w1) ->
  is_due env post (now w1) ->
  automated post = true ->
  content post = None ->
  Background.processQueue env w0 = (Throw "TypeError", w1)
  /\ Background.onMessage env "PROCESS_NOW" w0
     = (Some (Background.ProcessResponse false (Some "TypeError")), w1).
Proof.
  intros Hf Hpre Hdue Hauto Hc.
  assert (Hq : Background.processQueue env w0 = (Throw "TypeError", w1)).
  { rewrite (processQueue_after_fetch env w0 _ w Hf).
    assert (Hloop : Background.for_each_post env (pre ++ post :: rest) w
                    = (Throw "TypeError", w1)).
    { rewrite (for_each_post_reaches env pre post rest w w1 Hpre).
      unfold bind at 1. rewrite (process_post_due env post w1 Hdue).
      unfold automated in Hauto. unfold bind at 1.
      destruct (String.eqb (platform post) "x").
      - unfold bind at 1. rewrite postToTwitter_shape.
        rewrite (post_via_tab_needs_content _ _ _ _ _ _ _ Hc). reflexivity.
      - simpl in Hauto. rewrite Hauto.
        unfold bind at 1. rewrite postToLinkedIn_shape.
        rewrite (post_via_tab_needs_content _ _ _ _ _ _ _ Hc). reflexivity. }
    destruct pre; exact Hloop. }
  split; [exact Hq |].
  rewrite onMessage_process_now, Hq. reflexivity.
Qed.

Lemma missing_content_aborts_pass_witness :
  let env := Scenarios.silent_env in
  let w := snd (Background.fetchQueuedPosts env Examples.w0) in
  let w1 := snd (Background.for_each_post env [Examples.launch_post] w) in
  Background.processQueue env Examples.w0 = (Throw "TypeError", w1)
  /\ Background.onMessage env "PROCESS_NOW" Examples.w0
     = (Some (Background.ProcessResponse false (Some "TypeError")), w1).
Proof.
  refine (missing_content_aborts_pass Scenarios.silent_env Examples.w0
            (snd (Background.fetchQueuedPosts Scenarios.silent_env Examples.w0))
            [Examples.launch_post] Scenarios.silent_post []
            (snd (Background.for_each_post Scenarios.silent_env
                    [Examples.launch_post]
                    (snd (Background.fetchQueuedPosts Scenarios.silent_env
                            Examples.w0))))
            _ _ _ _ _).
  - vm_compute; reflexivity.
  - vm_compute; reflexivity.
  - left; reflexivity.
  - reflexivity.
  - reflexivity.
Defined.

(** ** The popup's queue view *)

(** X4.  When the backend answers the fetch behind GET_STATUS with an
    array of posts, loadQueue makes the popup hold exactly that array: the
    queued counter is its length and the post-now button is disabled
    exactly when it is empty.  When the backend is unreachable or answers
    with an error status, the popup shows an empty queue, a counter of 0
    and a disabled button, not an error.  In both cases the posted counter
    shows the stored [postedToday], 0 when none is stored, and the stored
    value is not changed. *)
Theorem loadQueue_shows_what_fetch_returns env s w :
  let s' := fst (Popup.loadQueue env s w) in
  (forall l,
      fetch_reply env (tick w) = HttpResponse true (BodyObject (PostsArray l)) ->
      Popup.posts s' = l
      /\ Popup.queuedCount s' = List.length l
      /\ (Popup.postNowBtn_disabled s' = true <-> l = []))
  /\ (fetch_failed (fetch_reply env (tick w)) ->
      Popup.posts s' = []
      /\ Popup.queuedCount s' = 0%nat
      /\ Popup.postNowBtn_disabled s' = true)
  /\ (forall n, Popup.postedToday s = Some n -> Popup.postedCount s' = n)
  /\ (Popup.postedToday s = None -> Popup.postedCount s' = 0)
  /\ Popup.postedToday s' = Popup.postedToday s.
Proof.
  unfold Popup.loadQueue, Popup.sendMessage, Background.onMessage.
  simpl String.eqb. cbv iota.
  rewrite fetchQueuedPosts_run. cbn -[Nat.eqb].
  split; [| split; [| split; [| split]]].
  - intros l ->. split; [reflexivity |]. split; [reflexivity |].
    destruct l; simpl; split; intros H; (reflexivity || discriminate).
  - intros [-> | [body ->]]; repeat split.
  - intros n ->. reflexivity.
  - intros ->. reflexivity.
  - reflexivity.
Qed.

(** One post is queued and five are counted: the popup shows the post, a
    queue of 1, an enabled button and 5. *)
Lemma loadQueue_shows_what_fetch_returns_witness :
  let s' := fst (Popup.loadQueue Examples.launch_env Scenarios.popup5
                   Examples.w0) in
  (Popup.posts s' = [Examples.launch_post]
   /\ Popup.queuedCount s' = 1%nat
   /\ (Popup.postNowBtn_disabled s' = true <-> [Examples.launch_post] = []))
  /\ Popup.postedCount s' = 5.
Proof.
  split.
  - refine (proj1 (loadQueue_shows_what_fetch_returns Examples.launch_env
                     Scenarios.popup5 Examples.w0) [Examples.launch_post] _).
    reflexivity.
  - refine (proj1 (proj2 (proj2
              (loadQueue_shows_what_fetch_returns Examples.launch_env
                 Scenarios.popup5 Examples.w0))) 5 _).
    reflexivity.
Defined.

(** With the backend down the popup shows an empty queue. *)
Example loadQueue_backend_down :
  let s' := fst (Popup.loadQueue Examples.backend_down Scenarios.popup5
                   Examples.w0) in
  Popup.posts s' = [] /\ Popup.queuedCount s' = 0%nat
  /\ Popup.postNowBtn_disabled s' = true /\ Popup.postedCount s' = 5.
Proof. repeat split. Qed.

(** ** Platforms without a poster *)

Lemma process_post_unautomated env post w :
  automated post = false ->
  Background.process_post env post w = (Done tt, w)
  \/ Background.process_post env post w = sleep env 3000 w.
Proof.
  intros Hauto. unfold automated in Hauto.
  apply orb_false_elim in Hauto as [Hx Hl].
  destruct (process_post_skips_iff env post w) as [[H _] | [_ H]];
    [left; exact H | right].
  rewrite H, Hx, Hl. reflexivity.
Qed.

Lemma unautomated_loop env posts :
  (forall p, In p posts -> automated p = false) ->
  forall w, exists evs,
    Background.for_each_post env posts w
    = (Done tt, snd (Background.for_each_post env posts w))
    /\ trace (snd (Background.for_each_post env posts w)) = trace w ++ evs
    /\ forallb is_post_delay evs = true
    /\ (List.length evs <= List.length posts)%nat.
Proof.
  induction posts as [| p posts IH]; intros Hall w.
  - exists []. simpl. rewrite app_nil_r. repeat split. lia.
  - assert (Hp : automated p = false) by (apply Hall; left; reflexivity).
    assert (Hrest : forall q, In q posts -> automated q = false)
      by (intros q Hq; apply Hall; right; exact Hq).
    cbn [Background.for_each_post]. unfold bind at 1 2 3.
    destruct (process_post_unautomated env p w Hp) as [-> | ->].
    + destruct (IH Hrest w) as (evs & Hrun & Ht & Hall' & Hlen).
      exists evs. repeat split; try assumption. simpl. lia.
    + cbn [sleep bind emit fst snd].
      match goal with
      | |- context [Background.for_each_post env posts ?w1] =>
          destruct (IH Hrest w1) as (evs & Hrun & Ht & Hall' & Hlen)
      end.
      exists (EvSleep 3000 :: evs). repeat split.
      * exact Hrun.
      * rewrite Ht. simpl. rewrite <- app_assoc. reflexivity.
      * simpl. exact Hall'.
      * simpl. lia.
Qed.

(** X5.  Posts whose platform is neither "x" nor "linkedin" are passed over
    without an error: when the queue holds only such posts the pass returns
    normally, and after the GET of the queue it does nothing but wait the
    3000 ms delay, at most once per post: no tab is queried or opened, nothing
    is injected, confirmed or notified. *)
Theorem unautomated_posts_only_delay env w0 posts w :
  Background.fetchQueuedPosts env w0 = (Done posts, w) ->
  (forall p, In p posts -> automated p = false) ->
  exists evs,
    fst (Background.processQueue env w0) = Done tt
    /\ trace (snd (Background.processQueue env w0))
       = trace w0 ++ EvFetch "GET" pending_url :: evs
    /\ forallb is_post_delay evs = true
    /\ (List.length evs <= List.length posts)%nat.
Proof.
  intros Hf Hall.
  rewrite (processQueue_after_fetch env w0 posts w Hf).
  assert (Htw : trace w = trace w0 ++ [EvFetch "GET" pending_url]).
  { rewrite fetchQueuedPosts_run in Hf. injection Hf as _ <-. reflexivity. }
  destruct (unautomated_loop env posts Hall w) as (evs & Hrun & Ht & Hd & Hlen).
  exists evs. destruct posts as [| p posts].
  - simpl in *. rewrite Htw. rewrite Htw, <- app_assoc in Ht.
    apply app_inv_head in Ht. simpl in Ht. injection Ht as <-.
    repeat split. lia.
  - rewrite Hrun. cbn [fst snd]. rewrite Ht, Htw, <- app_assoc.
    repeat split; assumption.
Qed.

Lemma unautomated_posts_only_delay_witness :
  exists evs,
    fst (Background.processQueue Scenarios.forum_env Examples.w0) = Done tt
    /\ trace (snd (Background.processQueue Scenarios.forum_env Examples.w0))
       = trace Examples.w0 ++ EvFetch "GET" pending_url :: evs
    /\ forallb is_post_delay evs = true
    /\ (List.length evs <= 1)%nat.
Proof.
  refine (unautomated_posts_only_delay Scenarios.forum_env Examples.w0
            [Scenarios.forum_post]
            (snd (Background.fetchQueuedPosts Scenarios.forum_env Examples.w0))
            _ _).
  - vm_compute; reflexivity.
  - intros p [<- | []]; reflexivity.
Defined.
(** ** The confirmation request is fire-and-forget *)

Lemma markPostAsPublished_run env postId w :
  Background.markPostAsPublished env postId w
  = (Done tt,
     mkWorld (now w + Z.of_N (latency env (tick w))) (S (tick w))
             (trace w ++ [EvFetch "POST" (confirm_url postId)])).
Proof.
  unfold Background.markPostAsPublished, try_catch, bind, emit, await, ret, throw.
  simpl. destruct (confirm_resolves env (tick w)); reflexivity.
Qed.

Lemma run_page_func_with_confirm env resolves f c :
  Background.run_page_func (with_confirm env resolves) f c
  = Background.run_page_func env f c.
Proof. destruct f; reflexivity. Qed.

(** Symbolic execution of a background poster: decide the answers of the
    tab calls and of the injection, and name the run of the page function. *)
Ltac poster_cases env w f c :=
  destruct (tabs_query_reply env (tick w)) as [[| ?t ?tabs] |]; simpl;
  try destruct (tabs_create_reply env (S (tick w))) as [?t |]; simpl;
  match goal with
  | |- context [inject_fate env ?n] => destruct (inject_fate env n); simpl
  | _ => idtac
  end;
  match goal with
  | |- context [Background.run_page_func env f c ?w1] =>
      destruct (Background.run_page_func env f c w1) as [[[] | ?e |] ?w2];
      simpl
  | _ => idtac
  end.

Ltac unfold_poster :=
  unfold post_via_tab, Background.content_preview, Background.content_arg,
    Background.tabs_query, Background.tabs_create, Background.executeScript,
    Background.showNotification.

Lemma post_via_tab_with_confirm env resolves patterns url f title post w :
  post_via_tab (with_confirm env resolves) patterns url f title post w
  = post_via_tab env patterns url f title post w.
Proof.
  unfold_poster.
  destruct (content post) as [c |]; [| reflexivity].
  rewrite run_page_func_with_confirm.
  unfold promise, try_catch, bind, emit, await, ret, throw, hang, sleep. simpl.
  poster_cases env w f c; rewrite ?markPostAsPublished_run; reflexivity.
Qed.

Lemma bind_cong {A B} (m m' : M A) (k k' : A -> M B) w :
  (forall w0, m w0 = m' w0) -> (forall a w1, k a w1 = k' a w1) ->
  bind m k w = bind m' k' w.
Proof.
  intros Hm Hk. unfold bind. rewrite Hm.
  destruct (m' w) as [[a | e |] w1]; [apply Hk | |]; reflexivity.
Qed.

Lemma process_post_with_confirm env resolves post w :
  Background.process_post (with_confirm env resolves) post w
  = Background.process_post env post w.
Proof.
  unfold Background.process_post.
  apply bind_cong; [reflexivity |].
  intros [] w1; [reflexivity |].
  apply bind_cong; [| reflexivity].
  intros w2.
  destruct (String.eqb (platform post) "x");
    [| destruct (String.eqb (platform post) "linkedin"); [| reflexivity]];
    (apply bind_cong; [| reflexivity]); intros w3.
  - rewrite !postToTwitter_shape. apply post_via_tab_with_confirm.
  - rewrite !postToLinkedIn_shape. apply post_via_tab_with_confirm.
Qed.

Lemma for_each_post_with_confirm env resolves posts w :
  Background.for_each_post (with_confirm env resolves) posts w
  = Background.for_each_post env posts w.
Proof.
  revert w. induction posts as [| p posts IH]; intros w; [reflexivity |].
  cbn [Background.for_each_post].
  apply bind_cong; [intros w0; apply process_post_with_confirm |].
  intros _ w1. apply IH.
Qed.

(** X6.  markPostAsPublished swallows a failed request: whether the
    confirmation requests resolve or reject changes nothing.  Each poster
    returns the same value and a whole pass ends in the same outcome, at the
    same time, with the same events; in particular the success notification
    is shown, and [true] returned, also when the backend never received the
    confirmation. *)
Theorem confirmation_outcome_is_ignored env resolves post w :
  Background.postToTwitter (with_confirm env resolves) post w
  = Background.postToTwitter env post w
  /\ Background.postToLinkedIn (with_confirm env resolves) post w
     = Background.postToLinkedIn env post w
  /\ Background.processQueue (with_confirm env resolves) w
     = Background.processQueue env w.
Proof.
  rewrite !postToTwitter_shape, !postToLinkedIn_shape.
  split; [apply post_via_tab_with_confirm |].
  split; [apply post_via_tab_with_confirm |].
  unfold Background.processQueue.
  apply bind_cong; [reflexivity |].
  intros posts w1. destruct (Nat.eqb (List.length posts) 0); [reflexivity |].
  apply for_each_post_with_confirm.
Qed.

(** ** The tab of a poster *)

Lemma run_page_func_no_tab_events env f c :
  emits (fun ev => negb (is_tab_event ev)) (Background.run_page_func env f c).
Proof.
  destruct f; simpl.
  - unfold Background.autoPostToX. emits_tac.
  - unfold Background.autoPostToLinkedIn. emits_tac.
Qed.

Lemma post_via_tab_discipline env patterns url f title post c w :
  content post = Some c ->
  exists evs,
    trace (snd (post_via_tab env patterns url f title post w)) = trace w ++ evs
    /\ tab_discipline env patterns url f c w evs.
Proof.
  intros Hc. unfold tab_discipline. unfold_poster. rewrite Hc.
  unfold promise, try_catch, bind, emit, await, ret, throw, hang, sleep. simpl.
  destruct (tabs_query_reply env (tick w)) as [[| t tabs] |]; simpl;
    try destruct (tabs_create_reply env (S (tick w))) as [t |]; simpl;
    match goal with
    | |- context [inject_fate env ?n] => destruct (inject_fate env n); simpl
    | _ => idtac
    end;
    match goal with
    | |- context [Background.run_page_func env f c ?w1] =>
        destruct (run_page_func_no_tab_events env f c w1) as [pevs [Hp Hall]];
        apply filter_negb_none in Hall;
        destruct (Background.run_page_func env f c w1) as [[[] | e |] w2];
        simpl in Hp; simpl;
        rewrite ?markPostAsPublished_run; simpl;
        rewrite ?Hp
    | _ => idtac
    end;
    (eexists; split;
     [ rewrite <- ?app_assoc; reflexivity
     | repeat (rewrite filter_app || simpl); rewrite ?Hall; reflexivity ]).
Qed.

(** X7.  How a poster of the background worker gets its tab, for a post with
    content: it queries the tabs of the platform once; it injects into the
    first tab found and opens none; when there is none it opens exactly one
    background tab (active: false) on the compose or feed URL, waits 4000 ms
    and injects there.  The page function is injected at most once, with the
    post's content as its only argument; when the query or the creation
    rejects nothing is injected. *)
Theorem poster_finds_or_opens_one_tab env post c w :
  content post = Some c ->
  (exists evs,
      trace (snd (Background.postToTwitter env post w)) = trace w ++ evs
      /\ tab_discipline env ["*://x.com/*"; "*://twitter.com/*"]
           "https://x.com/compose/tweet" AutoPostToX c w evs)
  /\ (exists evs,
         trace (snd (Background.postToLinkedIn env post w)) = trace w ++ evs
         /\ tab_discipline env ["*://www.linkedin.com/*"]
              "https://www.linkedin.com/feed/" AutoPostToLinkedIn c w evs).
Proof.
  intros Hc. rewrite postToTwitter_shape, postToLinkedIn_shape.
  split; apply post_via_tab_discipline, Hc.
Qed.

Lemma poster_finds_or_opens_one_tab_witness :
  (exists evs,
      trace (snd (Background.postToTwitter Examples.empty_queue
                    Examples.launch_post Examples.w0))
      = trace Examples.w0 ++ evs
      /\ filter is_tab_event evs
         = [EvTabsQuery ["*://x.com/*"; "*://twitter.com/*"];
            EvTabsCreate "https://x.com/compose/tweet" false;
            EvSleep 4000;
            EvExecuteScript 7 AutoPostToX [Js.lit "Launch day!"]])
  /\ (exists evs,
         trace (snd (Background.postToLinkedIn Examples.empty_queue
                       Examples.launch_post Examples.w0))
         = trace Examples.w0 ++ evs
         /\ filter is_tab_event evs
            = [EvTabsQuery ["*://www.linkedin.com/*"];
               EvTabsCreate "https://www.linkedin.com/feed/" false;
               EvSleep 4000;
               EvExecuteScript 7 AutoPostToLinkedIn [Js.lit "Launch day!"]]).
Proof.
  refine (poster_finds_or_opens_one_tab Examples.empty_queue
            Examples.launch_post (Js.lit "Launch day!") Examples.w0 _).
  reflexivity.
Defined.

(** ** When a poster answers *)

Lemma run_page_func_returns env f c w :
  exists b, fst (Background.run_page_func env f c w) = Done b.
Proof.
  destruct f; [apply autoPostToX_returns | apply autoPostToLinkedIn_returns].
Qed.

Lemma post_via_tab_outcome env patterns url f title post c w :
  content post = Some c ->
  (fst (post_via_tab env patterns url f title post w) = Hang
   <-> never_answers env w)
  /\ (forall e, fst (post_via_tab env patterns url f title post w) <> Throw e).
Proof.
  intros Hc. unfold never_answers. unfold_poster. rewrite Hc.
  unfold promise, try_catch, bind, emit, await, ret, throw, hang, sleep. simpl.
  destruct (tabs_query_reply env (tick w)) as [[| t tabs] |]; simpl;
    try destruct (tabs_create_reply env (S (tick w))) as [t |]; simpl;
    match goal with
    | |- context [inject_fate env ?n] => destruct (inject_fate env n); simpl
    | _ => idtac
    end;
    match goal with
    | |- context [Background.run_page_func env f c ?w1] =>
        destruct (run_page_func_returns env f c w1) as [b Hb];
        destruct (Background.run_page_func env f c w1) as [o w2];
        simpl in Hb; subst o; destruct b; simpl;
        rewrite ?markPostAsPublished_run; simpl
    | _ => idtac
    end;
    (split; [split; intros H; (reflexivity || discriminate || exact I)
            | intros e; discriminate]).
Qed.

(** X8.  A rejected tab call leaves a poster of the background worker
    pending.  For a post with content, when [chrome.tabs.query] rejects, or
    returns no tab and [chrome.tabs.create] rejects, the promise of
    postToTwitter and of postToLinkedIn is never resolved: both calls are
    awaited inside the promise executor and outside its try block.  A
    poster never raises for such a post. *)
Theorem rejected_tab_call_leaves_poster_pending env post c w :
  content post = Some c ->
  (tabs_query_reply env (tick w) = None
   \/ (tabs_query_reply env (tick w) = Some []
       /\ tabs_create_reply env (S (tick w)) = None) ->
   fst (Background.postToTwitter env post w) = Hang
   /\ fst (Background.postToLinkedIn env post w) = Hang)
  /\ (forall e, fst (Background.postToTwitter env post w) <> Throw e)
  /\ (forall e, fst (Background.postToLinkedIn env post w) <> Throw e).
Proof.
  intros Hc. rewrite postToTwitter_shape, postToLinkedIn_shape.
  destruct (post_via_tab_outcome env ["*://x.com/*"; "*://twitter.com/*"]
              "https://x.com/compose/tweet" AutoPostToX "Posted to X!"
              post c w Hc) as [H1 H2].
  destruct (post_via_tab_outcome env ["*://www.linkedin.com/*"]
              "https://www.linkedin.com/feed/" AutoPostToLinkedIn
              "Posted to LinkedIn!" post c w Hc) as [H3 H4].
  split; [| split; assumption].
  intros Hrej.
  assert (Hn : never_answers env w).
  { unfold never_answers.
    destruct Hrej as [-> | [-> ->]]; exact I. }
  split; [apply H1, Hn | apply H3, Hn].
Qed.

Lemma rejected_tab_call_leaves_poster_pending_witness :
  fst (Background.postToTwitter Scenarios.no_tabs_env Examples.launch_post
         Examples.w0) = Hang
  /\ fst (Background.postToLinkedIn Scenarios.no_tabs_env Examples.launch_post
            Examples.w0) = Hang.
Proof.
  refine (proj1 (rejected_tab_call_leaves_poster_pending
                   Scenarios.no_tabs_env Examples.launch_post
                   (Js.lit "Launch day!") Examples.w0 _) _).
  - reflexivity.
  - left. reflexivity.
Defined.

(** The same when no tab is open and none can be created: the run ends
    after the creation request. *)
Example poster_pending_after_rejected_creation :
  Background.postToTwitter Scenarios.no_new_tab_env Examples.launch_post
    Examples.w0
  = (Hang,
     mkWorld 5000 2
             [EvTabsQuery ["*://x.com/*"; "*://twitter.com/*"];
              EvTabsCreate "https://x.com/compose/tweet" false]).
Proof. vm_compute. reflexivity. Qed.

(** ** No confirmation without a click *)

(** The value of [m] passes [test] only when [Q] is achieved, and what
    follows returns a value that passes [ok] only after such a value. *)
Lemma achieves_bind_test {A B} (Q : list Event -> Prop) (test : A -> bool)
      (ok : B -> bool) (m : M A) (k : A -> M B) :
  stable Q ->
  achieves Q test m ->
  (forall a, emits any_event (k a)) ->
  (forall a, test a = false -> yields (k a) (fun b => ok b = false)) ->
  achieves Q ok (bind m k).
Proof.
  intros HQ Hm Hk Hno w. unfold bind.
  destruct (Hm w) as [evs [Ht Hq]].
  destruct (m w) as [[a | e |] w1]; simpl in *.
  - destruct (Hk a w1) as [evs' [Ht' _]].
    exists (evs ++ evs'). rewrite Ht', Ht, app_assoc. split; [reflexivity |].
    destruct (fst (k a w1)) as [b | e |] eqn:Hb; [| exact I | exact I].
    intros Hok. destruct (test a) eqn:Hta.
    + apply (stable_after Q HQ), Hq. reflexivity.
    + rewrite (Hno a Hta w1 b Hb) in Hok. discriminate.
  - exists evs. split; [exact Ht | exact I].
  - exists evs. split; [exact Ht | exact I].
Qed.

Lemma executeScript_achieves env Q tabId f c :
  stable Q ->
  achieves Q (fun b : bool => b) (Background.run_page_func env f c) ->
  achieves Q Background.injection_succeeded
           (Background.executeScript env tabId f c).
Proof.
  intros HQ Hf w.
  unfold Background.executeScript, bind, emit, await, ret, throw, hang. simpl.
  destruct (inject_fate env (tick w)); simpl.
  - match goal with
    | |- context [Background.run_page_func env f c ?w1] =>
        destruct (Hf w1) as [evs [Ht Hq]];
        destruct (Background.run_page_func env f c w1) as [[b | e |] w2]
    end; simpl in *;
      exists ([EvExecuteScript tabId f [c]] ++ evs);
      rewrite Ht, <- app_assoc; (split; [reflexivity |]); try exact I.
    intros Hb. apply (stable_before Q HQ), Hq. destruct b; [reflexivity | discriminate].
  - eexists. split; [reflexivity |]. discriminate.
  - eexists. split; [reflexivity | exact I].
  - eexists. split; [reflexivity | exact I].
Qed.

Lemma executeScript_emits env tabId f c :
  emits any_event (Background.executeScript env tabId f c).
Proof.
  unfold Background.executeScript.
  destruct f; simpl Background.run_page_func;
    unfold Background.autoPostToX, Background.autoPostToLinkedIn; emits_tac.
Qed.

Lemma post_via_tab_achieves env Q patterns url f title post :
  stable Q ->
  achieves Q (fun b : bool => b)
           (Background.run_page_func env f (Background.content_arg post)) ->
  achieves Q (fun b : bool => b) (post_via_tab env patterns url f title post).
Proof.
  intros HQ Hf. unfold post_via_tab.
  apply achieves_bind_r; [exact HQ | |].
  { unfold Background.content_preview. emits_tac. }
  intros _. apply achieves_promise.
  apply achieves_bind_r; [exact HQ | |].
  { unfold Background.tabs_query. emits_tac. }
  intros tabs.
  apply achieves_bind_r; [exact HQ | |].
  { unfold Background.tabs_create. emits_tac. }
  intros tabId.
  apply achieves_try_catch; [exact HQ | | intros e; apply achieves_ret_not; reflexivity].
  apply (achieves_bind_test Q Background.injection_succeeded); [exact HQ | | |].
  - apply executeScript_achieves; assumption.
  - intros result.
    unfold Background.markPostAsPublished, Background.content_preview,
      Background.showNotification.
    emits_tac.
  - intros result Hr. rewrite Hr. intros w b Hb. simpl in Hb.
    injection Hb as <-. reflexivity.
Qed.

(** X9.  A poster of the background worker sends a confirmation request only
    after the injected page function has clicked a submit button that a
    lookup with one of its submit selectors returned and that was not
    disabled.  This holds for every post, tab and page, also when the
    injection fails or the page lacks the button: then no request is sent. *)
Theorem no_confirmation_without_click env post w :
  (exists evs,
      trace (snd (Background.postToTwitter env post w)) = trace w ++ evs
      /\ (filter is_post_request evs <> [] ->
          acted_on env EvClick (fun x => el_disabled x = false)
                   [Sel.tweet_button; Sel.tweet_button_inline] evs))
  /\ (exists evs,
         trace (snd (Background.postToLinkedIn env post w)) = trace w ++ evs
         /\ (filter is_post_request evs <> [] ->
             acted_on env EvClick (fun x => el_disabled x = false)
                      [Sel.share_primary; Sel.share_post; Sel.closed_share_box]
                      evs)).
Proof.
  rewrite postToTwitter_shape, postToLinkedIn_shape. split.
  - destruct (post_via_tab_confirms env ["*://x.com/*"; "*://twitter.com/*"]
                "https://x.com/compose/tweet" AutoPostToX "Posted to X!" post w)
      as [evs [Ht Hposts]].
    destruct (post_via_tab_achieves env _ ["*://x.com/*"; "*://twitter.com/*"]
                "https://x.com/compose/tweet" AutoPostToX "Posted to X!" post
                (stable_acted_on _ _ _ _)
                (autoPostToX_clicks_submit env (Background.content_arg post)) w)
      as [evs' [Ht' Hq]].
    rewrite Ht in Ht'. apply app_inv_head in Ht'. subst evs'.
    exists evs. split; [exact Ht |]. intros Hne.
    destruct (fst (post_via_tab env _ _ _ _ post w)) as [[] | e |];
      try (exfalso; apply Hne; exact Hposts).
    apply Hq. reflexivity.
  - destruct (post_via_tab_confirms env ["*://www.linkedin.com/*"]
                "https://www.linkedin.com/feed/" AutoPostToLinkedIn
                "Posted to LinkedIn!" post w)
      as [evs [Ht Hposts]].
    destruct (post_via_tab_achieves env _ ["*://www.linkedin.com/*"]
                "https://www.linkedin.com/feed/" AutoPostToLinkedIn
                "Posted to LinkedIn!" post
                (stable_acted_on _ _ _ _)
                (autoPostToLinkedIn_clicks_submit env
                   (Background.content_arg post)) w)
      as [evs' [Ht' Hq]].
    rewrite Ht in Ht'. apply app_inv_head in Ht'. subst evs'.
    exists evs. split; [exact Ht |]. intros Hne.
    destruct (fst (post_via_tab env _ _ _ _ post w)) as [[] | e |];
      try (exfalso; apply Hne; exact Hposts).
    apply Hq. reflexivity.
Qed.

Lemma no_confirmation_without_click_witness :
  exists evs,
    trace (snd (Background.postToTwitter Examples.launch_env
                  Examples.launch_post Examples.w0))
    = trace Examples.w0 ++ evs
    /\ filter is_post_request evs <> []
    /\ acted_on Examples.launch_env EvClick (fun x => el_disabled x = false)
                [Sel.tweet_button; Sel.tweet_button_inline] evs.
Proof.
  destruct (proj1 (no_confirmation_without_click Examples.launch_env
                     Examples.launch_post Examples.w0))
    as (evs & Ht & Hclick).
  assert (Hreq : filter is_post_request evs <> []).
  { change (trace Examples.w0 ++ evs) with evs in Ht. rewrite <- Ht.
    vm_compute. discriminate. }
  exists evs. split; [exact Ht |]. split; [exact Hreq | exact (Hclick Hreq)].
Defined.

(** ** The requests of a pass *)

Lemma emits_weaken (P Q : Event -> bool) {A} (m : M A) :
  (forall ev, P ev = true -> Q ev = true) -> emits P m -> emits Q m.
Proof.
  intros HPQ Hm w. destruct (Hm w) as [evs [Ht Hall]].
  exists evs. split; [exact Ht |].
  rewrite forallb_forall in *. intros ev Hin. apply HPQ, Hall, Hin.
Qed.

Lemma page_event_confirms_of queue ev :
  page_event ev = true -> confirms_of queue ev = true.
Proof. destruct ev; simpl; intros H; try reflexivity; discriminate. Qed.

Lemma confirms_of_confirmation queue post :
  In post queue -> confirms_of queue (confirmation post) = true.
Proof.
  intros Hin. simpl. apply existsb_exists. exists post.
  split; [exact Hin | apply String.eqb_refl].
Qed.

Lemma post_via_tab_requests env queue patterns url f title post :
  In post queue ->
  emits (confirms_of queue) (post_via_tab env patterns url f title post).
Proof.
  intros Hin.
  unfold_poster. unfold Background.markPostAsPublished.
  repeat first
    [ apply (emits_weaken page_event);
      [ apply page_event_confirms_of | apply run_page_func_page_events ]
    | apply emits_emit; apply (confirms_of_confirmation queue post Hin)
    | emits_step ].
Qed.

Lemma process_post_requests env queue post :
  In post queue -> emits (confirms_of queue) (Background.process_post env post).
Proof.
  intros Hin. unfold Background.process_post.
  repeat first
    [ rewrite postToTwitter_shape; apply post_via_tab_requests, Hin
    | rewrite postToLinkedIn_shape; apply post_via_tab_requests, Hin
    | emits_step ].
Qed.

Lemma for_each_post_requests env queue posts :
  incl posts queue -> emits (confirms_of queue) (Background.for_each_post env posts).
Proof.
  induction posts as [| p posts IH]; intros Hincl.
  - apply emits_ret.
  - cbn [Background.for_each_post]. apply emits_bind.
    + apply process_post_requests, Hincl. left. reflexivity.
    + intros _. apply IH. intros q Hq. apply Hincl. right. exact Hq.
Qed.

(** X10.  A pass starts with the GET of the pending queue, and every request
    it makes after that is a POST to the confirmation URL of a post of the
    queue it fetched: the queue is fetched once per pass, and nothing is
    confirmed that was not in it. *)
Theorem pass_fetches_once_and_confirms_its_queue env w queue w1 :
  Background.fetchQueuedPosts env w = (Done queue, w1) ->
  exists evs,
    trace (snd (Background.processQueue env w))
    = trace w ++ EvFetch "GET" pending_url :: evs
    /\ forallb (confirms_of queue) evs = true.
Proof.
  intros Hf.
  assert (Htw : trace w1 = trace w ++ [EvFetch "GET" pending_url]).
  { rewrite fetchQueuedPosts_run in Hf. injection Hf as _ <-. reflexivity. }
  rewrite (processQueue_after_fetch env w queue w1 Hf).
  destruct (for_each_post_requests env queue queue (incl_refl queue) w1)
    as [evs [Ht Hall]].
  destruct queue as [| p queue].
  - exists []. simpl. split; [exact Htw | reflexivity].
  - exists evs. rewrite Ht, Htw, <- app_assoc. split; [reflexivity | exact Hall].
Qed.

Lemma pass_fetches_once_and_confirms_its_queue_witness :
  exists evs,
    trace (snd (Background.processQueue Examples.launch_env Examples.w0))
    = trace Examples.w0 ++ EvFetch "GET" pending_url :: evs
    /\ forallb (confirms_of [Examples.launch_post]) evs = true.
Proof.
  refine (pass_fetches_once_and_confirms_its_queue Examples.launch_env
            Examples.w0 [Examples.launch_post]
            (snd (Background.fetchQueuedPosts Examples.launch_env Examples.w0))
            _).
  vm_compute; reflexivity.
Defined.

(** ** How long a pass lasts *)

Lemma advances_still {A} (m : M A) :
  (forall w, now (snd (m w)) = now w) -> advances m.
Proof. intros H w. rewrite H. lia. Qed.

Lemma advances_await env : advances (await env).
Proof. intros w. simpl. lia. Qed.

Lemma advances_sleep env ms : advances (sleep env ms).
Proof. intros w. simpl. lia. Qed.

Lemma advances_bind {A B} (m : M A) (k : A -> M B) :
  advances m -> (forall a, advances (k a)) -> advances (bind m k).
Proof.
  intros Hm Hk w. unfold bind. specialize (Hm w).
  destruct (m w) as [[a | e |] w1]; simpl in *; try exact Hm.
  specialize (Hk a w1). lia.
Qed.

Lemma advances_try_catch {A} (m : M A) (h : string -> M A) :
  advances m -> (forall e, advances (h e)) -> advances (try_catch m h).
Proof.
  intros Hm Hh w. unfold try_catch. specialize (Hm w).
  destruct (m w) as [[a | e |] w1]; simpl in *; try exact Hm.
  specialize (Hh e w1). lia.
Qed.

Lemma advances_promise {A} (m : M A) : advances m -> advances (promise m).
Proof.
  intros Hm w. unfold promise. specialize (Hm w).
  destruct (m w) as [[a | e |] w1]; simpl in *; exact Hm.
Qed.

Ltac advances_step :=
  lazymatch goal with
  | |- advances (bind _ _) => apply advances_bind; [| intros ?]
  | |- advances (try_catch _ _) => apply advances_try_catch; [| intros ?]
  | |- advances (promise _) => apply advances_promise
  | |- advances (or_else _ _) => unfold or_else
  | |- advances (click _) => unfold click, method_call
  | |- advances (focus _) => unfold focus, method_call
  | |- advances (querySelector _ _) => unfold querySelector
  | |- advances (href_includes _ _) => unfold href_includes
  | |- advances (await _) => apply advances_await
  | |- advances (sleep _ _) => apply advances_sleep
  | |- advances (match ?x with _ => _ end) => destruct x
  | |- advances _ => apply advances_still; reflexivity
  end.

Lemma post_via_tab_advances env patterns url f title post :
  advances (post_via_tab env patterns url f title post).
Proof.
  unfold_poster. unfold Background.markPostAsPublished, Background.run_page_func,
    Background.autoPostToX, Background.autoPostToLinkedIn.
  repeat advances_step.
Qed.

Lemma process_post_takes_the_delay env post w w' :
  Js.truthy (scheduled_time post) = false ->
  Background.process_post env post w = (Done tt, w') ->
  now w + 3000 <= now w'.
Proof.
  intros Hnow. unfold Background.process_post. rewrite Hnow.
  unfold bind at 1. unfold ret at 1. cbv iota beta.
  unfold bind at 1.
  match goal with
  | |- context [(if ?b then ?m1 else ?m2) w] =>
      assert (Hadv : now w <= now (snd ((if b then m1 else m2) w)));
      [| destruct ((if b then m1 else m2) w) as [[[] | e |] w1];
         try discriminate ]
  end.
  - destruct (String.eqb (platform post) "x");
      [| destruct (String.eqb (platform post) "linkedin")].
    + rewrite postToTwitter_shape.
      apply (advances_bind _ _ (post_via_tab_advances _ _ _ _ _ _)).
      intros b. apply advances_still. reflexivity.
    + rewrite postToLinkedIn_shape.
      apply (advances_bind _ _ (post_via_tab_advances _ _ _ _ _ _)).
      intros b. apply advances_still. reflexivity.
    + simpl. lia.
  - simpl in *. intros H. injection H as <-. simpl. lia.
Qed.

Lemma immediate_loop_duration env posts :
  (forall p, In p posts -> Js.truthy (scheduled_time p) = false) ->
  forall w w',
    Background.for_each_post env posts w = (Done tt, w') ->
    now w + 3000 * Z.of_nat (List.length posts) <= now w'.
Proof.
  induction posts as [| p posts IH]; intros Hall w w' Hrun.
  - simpl in Hrun. injection Hrun as <-. simpl. lia.
  - cbn [Background.for_each_post] in Hrun. unfold bind at 1 in Hrun.
    destruct (Background.process_post env p w) as [[[] | e |] w1] eqn:Hp;
      try discriminate.
    pose proof (process_post_takes_the_delay env p w w1
                  (Hall p (or_introl eq_refl)) Hp) as H1.
    pose proof (IH (fun q Hq => Hall q (or_intror Hq)) w1 w' Hrun) as H2.
    rewrite length_cons, Nat2Z.inj_succ. lia.
Qed.

(** X11.  A pass over a queue without scheduled posts that returns has
    lasted at least 3000 ms per post of the queue: the delay follows every
    post, the last one included, and also a post that failed or whose
    platform has no poster. *)
Theorem pass_lasts_three_seconds_per_post env w0 posts w w' :
  Background.fetchQueuedPosts env w0 = (Done posts, w) ->
  (forall p, In p posts -> Js.truthy (scheduled_time p) = false) ->
  Background.processQueue env w0 = (Done tt, w') ->
  now w0 + 3000 * Z.of_nat (List.length posts) <= now w'.
Proof.
  intros Hf Hall Hrun.
  rewrite (processQueue_after_fetch env w0 posts w Hf) in Hrun.
  assert (Hw : now w0 <= now w).
  { rewrite fetchQueuedPosts_run in Hf. injection Hf as _ <-. simpl. lia. }
  destruct posts as [| p posts].
  - injection Hrun as <-. simpl. lia.
  - pose proof (immediate_loop_duration env (p :: posts) Hall w w' Hrun). lia.
Qed.

Lemma pass_lasts_three_seconds_per_post_witness :
  now Examples.w0 + 3000 * 1
  <= now (snd (Background.processQueue Examples.launch_env Examples.w0)).
Proof.
  refine (pass_lasts_three_seconds_per_post Examples.launch_env Examples.w0
            [Examples.launch_post]
            (snd (Background.fetchQueuedPosts Examples.launch_env Examples.w0))
            (snd (Background.processQueue Examples.launch_env Examples.w0))
            _ _ _).
  - vm_compute; reflexivity.
  - intros p [<- | []]; reflexivity.
  - vm_compute; reflexivity.
Defined.

(** ** The lookups of waitForElement *)

Lemma wait_loop_lookups env sel timeout start :
  forall (m : nat) (w : World),
    (Z.to_nat (start + timeout - now w) < m)%nat ->
    exists evs,
      trace (snd (Content.wait_loop env sel timeout start w)) = trace w ++ evs
      /\ forallb (poll_event sel) evs = true
      /\ 100 * Z.of_nat (List.length (filter is_query evs))
         < Z.max 0 (start + timeout - now w) + 100.
Proof.
  induction m as [| m IH]; intros w Hm; [lia |].
  rewrite wait_loop_unfold.
  destruct (Z.ltb_spec (now w - start) timeout) as [Hlt | Hge].
  - destruct (query_selector env (tick w) sel) as [e |].
    + exists [EvQuery sel]. simpl. rewrite String.eqb_refl.
      repeat split. lia.
    + pose proof (poll_miss_later env sel w) as Hlater.
      destruct (IH (poll_miss env sel w)) as (evs & Ht & Hall & Hn); [lia |].
      exists ([EvQuery sel; EvSleep 100] ++ evs).
      rewrite Ht. simpl. rewrite String.eqb_refl, Hall, <- !app_assoc.
      repeat split. rewrite ?Zpos_P_of_succ_nat. lia.
  - exists []. simpl. rewrite app_nil_r. repeat split. lia.
Qed.

(** X12.  waitForElement does nothing on the page but look its selector up
    and wait 100 ms, and the number of lookups is bounded by the timeout:
    100 times that number is below the timeout plus 100.  With a timeout of
    zero or less it does not look at the page at all, so an element that is
    already there is not found. *)
Theorem waitForElement_lookups_bounded env sel timeout w :
  exists evs,
    trace (snd (Content.waitForElement env sel timeout w)) = trace w ++ evs
    /\ forallb (poll_event sel) evs = true
    /\ 100 * Z.of_nat (List.length (filter is_query evs)) < Z.max 0 timeout + 100.
Proof.
  destruct (wait_loop_lookups env sel timeout (now w)
              (S (Z.to_nat (now w + timeout - now w))) w) as (evs & Ht & Hall & Hn);
    [lia |].
  exists evs. split; [exact Ht |]. split; [exact Hall |].
  replace (now w + timeout - now w) with timeout in Hn by lia. exact Hn.
Qed.

(** ** The content scripts never raise *)

Lemma waitForElement_settles env sel timeout :
  settles (Content.waitForElement env sel timeout).
Proof.
  intros w. unfold Content.waitForElement, bind, date_now.
  destruct (wait_loop_polls env sel timeout (now w)
              (S (Z.to_nat (now w + timeout - now w))) w) as [n [_ Hres]];
    [lia |].
  destruct Hres as [[_ [e [_ ->]]] | [_ ->]]; discriminate.
Qed.

Lemma caught_returns {A} (body : M A) (d : A) w :
  settles body -> exists a, fst (try_catch body (fun _ => ret d) w) = Done a.
Proof.
  intros H. specialize (H w). unfold try_catch.
  destruct (body w) as [[a | e |] w1]; simpl in *; eauto.
  contradiction.
Qed.

Ltac settles_tac :=
  repeat first [ apply waitForElement_settles | settles_step ].

Lemma stable_never : stable (fun _ : list Event => False).
Proof. intros pre evs post H. exact H. Qed.

Lemma caught_never_raises {A} (body : M A) (d : A) w e :
  fst (try_catch body (fun _ => ret d) w) <> Throw e.
Proof.
  unfold try_catch. destruct (body w) as [[a | e' |] w1]; discriminate.
Qed.

Lemma prefix_spec sub s :
  String.prefix sub s = true <-> exists suf, s = (sub ++ suf)%string.
Proof.
  revert s. induction sub as [| a sub IH]; intros s.
  - split; [intros _; exists s; reflexivity | intros _; destruct s; reflexivity].
  - destruct s as [| b s]; cbn [String.prefix append].
    + split; [discriminate | intros [suf H]; discriminate H].
    + destruct (Ascii.ascii_dec a b) as [e | Hne].
      * subst b. rewrite IH. split; intros [suf H]; exists suf.
        -- rewrite H. reflexivity.
        -- injection H as H. exact H.
      * split; [discriminate |].
        intros [suf H]. injection H as H _. congruence.
Qed.

(** [includes] decides whether the second string occurs in the first. *)
Lemma includes_spec s sub : Js.includes s sub = true <-> contains s sub.
Proof.
  split.
  - induction s as [| c s IH]; cbn [Js.includes]; intros H;
      apply orb_prop in H as [H | H].
    + apply prefix_spec in H as [suf H]. exists EmptyString, suf. exact H.
    + discriminate H.
    + apply prefix_spec in H as [suf H]. exists EmptyString, suf. exact H.
    + destruct (IH H) as (pre & suf & Hs).
      exists (String c pre), suf. rewrite Hs. reflexivity.
  - intros (pre & suf & Hs). revert s Hs.
    induction pre as [| c pre IH]; intros s Hs.
    + assert (Hp : String.prefix sub s = true).
      { apply prefix_spec. exists suf. exact Hs. }
      destruct s; cbn [Js.includes]; rewrite Hp; reflexivity.
    + subst s. cbn [Js.includes append].
      rewrite (IH _ eq_refl). apply orb_true_r.
Qed.

Lemma href_includes_run env sub w :
  href_includes env sub w
  = (Done (Js.includes (location_href env (tick w)) sub),
     mkWorld (now w) (S (tick w)) (trace w)).
Proof. reflexivity. Qed.

(** X13.  The posting functions of the two content scripts never raise:
    every error is caught.  postToLinkedIn always returns a boolean, the
    polling being bounded, and [false] for a post without content.  postToX
    returns a boolean when "/compose" occurs in the address of the page; on
    any other page all it does is assign [window.location.href] the
    compose address, and it never answers, the document being replaced. *)
Theorem content_posters_never_raise env post w :
  (forall e, fst (ContentX.postToX env post w) <> Throw e)
  /\ (forall e, fst (ContentLinkedIn.postToLinkedIn env post w) <> Throw e)
  /\ (exists b, fst (ContentLinkedIn.postToLinkedIn env post w) = Done b)
  /\ (content post = None ->
      fst (ContentLinkedIn.postToLinkedIn env post w) = Done false)
  /\ (contains (location_href env (tick w)) "/compose" ->
      exists b, fst (ContentX.postToX env post w) = Done b)
  /\ (~ contains (location_href env (tick w)) "/compose" ->
      ContentX.postToX env post w
      = (Hang,
         mkWorld (now w) (S (tick w))
                 (trace w ++ [EvNavigate "https://x.com/compose/tweet"]))).
Proof.
  assert (Hli : exists b, fst (ContentLinkedIn.postToLinkedIn env post w) = Done b).
  { unfold ContentLinkedIn.postToLinkedIn. apply caught_returns. settles_tac. }
  split; [intros e; apply caught_never_raises |].
  split; [intros e; apply caught_never_raises |].
  split; [exact Hli |].
  split; [| split].
  - intros Hc. destruct Hli as [[] Hb]; [exfalso | exact Hb].
    assert (Hnever : achieves (fun _ => False) (fun b : bool => b)
                              (ContentLinkedIn.postToLinkedIn env post)).
    { unfold ContentLinkedIn.postToLinkedIn. rewrite Hc.
      repeat first
        [ apply achieves_try_catch; [apply stable_never | | intros ?]
        | apply achieves_ret_not; reflexivity
        | apply achieves_throw
        | apply achieves_bind_r; [apply stable_never | solve [emits_tac] | intros ?]
        | match goal with
          | |- achieves _ _ (match ?x with _ => _ end) => destruct x
          end ]. }
    destruct (Hnever w) as [evs [_ H]]. rewrite Hb in H. exact (H eq_refl).
  - intros Hon. apply includes_spec in Hon.
    unfold ContentX.postToX, try_catch.
    rewrite (bind_Done _ _ _ _ _ (href_includes_run env "/compose" w)), Hon.
    cbn [negb].
    match goal with
    | |- exists b, fst (match ?body ?w1 with _ => _ end) = Done b =>
        apply (caught_returns body false w1)
    end.
    settles_tac.
  - intros Hoff.
    assert (Hoff' : Js.includes (location_href env (tick w)) "/compose" = false).
    { destruct (Js.includes (location_href env (tick w)) "/compose") eqn:E;
        [| reflexivity].
      exfalso. apply Hoff, includes_spec, E. }
    clear Hoff. rename Hoff' into Hoff.
    unfold ContentX.postToX, try_catch.
    rewrite (bind_Done _ _ _ _ _ (href_includes_run env "/compose" w)), Hoff.
    reflexivity.
Qed.

Lemma content_posters_never_raise_witness :
  fst (ContentLinkedIn.postToLinkedIn Examples.li_no_button_env
         Scenarios.silent_post Examples.w0) = Done false
  /\ ContentX.postToX Scenarios.home_env Examples.launch_post Examples.w0
     = (Hang, mkWorld 5000 1 [EvNavigate "https://x.com/compose/tweet"]).
Proof.
  split.
  - refine (proj1 (proj2 (proj2 (proj2
              (content_posters_never_raise Examples.li_no_button_env
                 Scenarios.silent_post Examples.w0)))) _).
    reflexivity.
  - refine (proj2 (proj2 (proj2 (proj2 (proj2
              (content_posters_never_raise Scenarios.home_env
                 Examples.launch_post Examples.w0))))) _).
    intros H. apply includes_spec in H. discriminate H.
Defined.

(** ** The HTML written into the LinkedIn editor *)

Lemma lines_not_nil s : lines s <> [].
Proof.
  destruct s as [| u s]; simpl; [discriminate |].
  destruct (N.eqb u Js.newline); [discriminate |].
  destruct (lines s); discriminate.
Qed.

Lemma join_cons sep l l' ls :
  join sep (l :: l' :: ls) = l ++ sep ++ join sep (l' :: ls).
Proof. reflexivity. Qed.

Lemma replace_newlines_lines sep s :
  Js.replace_newlines sep s = join sep (lines s).
Proof.
  induction s as [| u s IH]; [reflexivity |].
  pose proof (lines_not_nil s) as Hne.
  cbn [Js.replace_newlines lines].
  destruct (N.eqb u Js.newline).
  - rewrite IH. destruct (lines s) as [| l ls]; [contradiction | reflexivity].
  - rewrite IH.
    destruct (lines s) as [| l [| l' ls]]; [contradiction | reflexivity | reflexivity].
Qed.

(** Splitting at newlines and joining with newlines gives the text back. *)
Lemma lines_join s : join [Js.newline] (lines s) = s.
Proof.
  induction s as [| u s IH]; [reflexivity |].
  pose proof (lines_not_nil s) as Hne.
  cbn [lines].
  destruct (N.eqb_spec u Js.newline) as [-> | Hu].
  - destruct (lines s) as [| l ls]; [contradiction |].
    rewrite join_cons, IH. reflexivity.
  - destruct (lines s) as [| l [| l' ls]]; [contradiction | |].
    + cbn [join] in *. rewrite IH. reflexivity.
    + rewrite join_cons in *. rewrite <- IH. reflexivity.
Qed.

Lemma paragraphs_of_lines ls :
  ls <> [] ->
  paragraph (join (p_close ++ p_open) ls) = List.concat (map paragraph ls).
Proof.
  induction ls as [| l ls IH]; intros Hne; [contradiction |].
  destruct ls as [| l' ls].
  - simpl. rewrite app_nil_r. reflexivity.
  - rewrite join_cons. cbn [map List.concat]. cbn [map List.concat] in IH.
    rewrite <- IH by discriminate.
    unfold paragraph. rewrite <- !app_assoc. reflexivity.
Qed.

Lemma html_of_content c :
  Js.lit "<p>" ++ Js.replace_newlines (Js.lit "</p><p>") c ++ Js.lit "</p>"
  = List.concat (map paragraph (lines c)).
Proof.
  change (Js.lit "<p>") with p_open. change (Js.lit "</p>") with p_close.
  change (Js.lit "</p><p>") with (p_close ++ p_open).
  rewrite replace_newlines_lines.
  apply (paragraphs_of_lines (lines c) (lines_not_nil c)).
Qed.

(** X14.  What the LinkedIn automation writes into the editor.  A run of
    the page function autoPostToLinkedIn that returns [true] has written
    [innerHTML] exactly once: one [<p>] paragraph per line of the content,
    in order, an empty line giving an empty paragraph.  A run of the
    content script that returns [true] has written it exactly twice, on the
    same element: first the empty string, then a single paragraph with the
    lines of the content separated by [<br>].  The lines are the pieces of
    the content between newlines (joined by newlines they give the content
    back) and are copied as they are, without HTML escaping.  The markup
    is spelled in code units: 60 112 62 for [<p>], 60 47 112 62 for [</p>],
    60 98 114 62 for [<br>]. *)
Theorem linkedin_html_is_one_paragraph_per_line env c post :
  logs is_html_write (Background.autoPostToLinkedIn env c)
       (fun b l =>
          b = true ->
          exists ed, l = [EvSetInnerHTML ed (List.concat (map paragraph (lines c)))])
  /\ (content post = Some c ->
      logs is_html_write (ContentLinkedIn.postToLinkedIn env post)
           (fun b l =>
              b = true ->
              exists ed,
                l = [EvSetInnerHTML ed [];
                     EvSetInnerHTML ed
                       (paragraph (join br (lines c)))]))
  /\ join [Js.newline] (lines c) = c.
Proof.
  split; [| split; [| apply lines_join]].
  - unfold Background.autoPostToLinkedIn.
    apply logs_promise.
    apply (logs_caught is_html_write _
             (fun l => exists ed,
                  l = [EvSetInnerHTML ed (List.concat (map paragraph (lines c)))])).
    logs_quiet. logs_quiet. logs_quiet.
    match goal with
    | |- logs _ (match ?x with _ => _ end) _ => destruct x as [ed |]
    end; [| apply logs_ret; intros H; discriminate H].
    logs_quiet. logs_quiet.
    apply (logs_bind _ _ _
             (fun _ l => l = [EvSetInnerHTML ed
                                (List.concat (map paragraph (lines c)))])).
    { apply logs_emit. rewrite html_of_content. reflexivity. }
    intros [] l1 ->.
    eapply logs_weaken; [apply logs_silent; emits_tac |].
    cbv beta. intros b l -> _. exists ed. reflexivity.
  - intros Hc. unfold ContentLinkedIn.postToLinkedIn. rewrite Hc.
    apply (logs_caught is_html_write _
             (fun l => exists ed,
                  l = [EvSetInnerHTML ed [];
                       EvSetInnerHTML ed
                         (paragraph (join br (lines c)))])).
    logs_quiet. logs_quiet. logs_quiet.
    match goal with
    | |- logs _ (match ?x with _ => _ end) _ => destruct x as [ed |]
    end; [| apply logs_ret; intros H; discriminate H].
    logs_quiet.
    apply (logs_bind _ _ _ (fun _ l => l = [EvSetInnerHTML ed []]));
      [apply logs_emit; reflexivity |].
    intros [] l1 ->.
    apply (logs_bind _ _ _
             (fun t l => t = Js.replace_newlines (Js.lit "<br>") c /\ l = []));
      [apply logs_ret; split; reflexivity |].
    intros t l1 [-> ->].
    apply (logs_bind _ _ _
             (fun _ l => l = [EvSetInnerHTML ed
                                (paragraph (join br (lines c)))])).
    { apply logs_emit. change (Js.lit "<br>") with br.
      rewrite replace_newlines_lines. reflexivity. }
    intros [] l1 ->.
    eapply logs_weaken; [apply logs_silent; emits_tac |].
    cbv beta. intros b l -> _. exists ed. reflexivity.
Qed.

Lemma linkedin_html_is_one_paragraph_per_line_witness :
  logs is_html_write
       (ContentLinkedIn.postToLinkedIn Examples.li_no_button_env
          Scenarios.two_line_post)
       (fun b l =>
          b = true ->
          exists ed,
            l = [EvSetInnerHTML ed [];
                 EvSetInnerHTML ed (Js.lit "<p>Hello<br>world</p>")]).
Proof.
  refine (proj1 (proj2 (linkedin_html_is_one_paragraph_per_line
                          Examples.li_no_button_env Scenarios.two_lines
                          Scenarios.two_line_post)) _).
  reflexivity.
Defined.

(** ** Computed examples *)

Example waitForElement_zero_timeout :
  Content.waitForElement Examples.launch_env Sel.tweet_textarea 0 Examples.w0
  = (Done None, Examples.w0).
Proof. vm_compute. reflexivity. Qed.

Example lines_of_two_lines :
  lines Scenarios.two_lines = [Js.lit "Hello"; Js.lit "world"]
  /\ List.concat (map paragraph (lines Scenarios.two_lines))
     = Js.lit "<p>Hello</p><p>world</p>".
Proof. split; vm_compute; reflexivity. Qed.

(** Both scripts at work on the two lines: the writes of a run that
    returns [true]. *)
Example linkedin_writes_two_lines :
  fst (Background.autoPostToLinkedIn Scenarios.li_env Scenarios.two_lines
         Examples.w0) = Done true
  /\ filter is_html_write
       (trace (snd (Background.autoPostToLinkedIn Scenarios.li_env
                      Scenarios.two_lines Examples.w0)))
     = [EvSetInnerHTML Examples.textarea (Js.lit "<p>Hello</p><p>world</p>")]
  /\ fst (ContentLinkedIn.postToLinkedIn Examples.li_no_button_env
            Scenarios.two_line_post Examples.w0) = Done true
  /\ filter is_html_write
       (trace (snd (ContentLinkedIn.postToLinkedIn Examples.li_no_button_env
                      Scenarios.two_line_post Examples.w0)))
     = [EvSetInnerHTML Examples.textarea [];
        EvSetInnerHTML Examples.textarea (Js.lit "<p>Hello<br>world</p>")].
Proof. repeat split; vm_compute; reflexivity. Qed.

(** Markup in the content is written as it is. *)
Example content_is_not_escaped :
  List.concat (map paragraph (lines (Js.lit "a<b"))) = Js.lit "<p>a<b</p>".
Proof. reflexivity. Qed.

(** The literals of the markup in code units. *)
Example markup_in_code_units :
  Js.lit "<p>" = p_open /\ Js.lit "</p>" = p_close /\ Js.lit "<br>" = br
  /\ Js.lit "..." = ellipsis /\ Js.lit "Hello" = [72; 101; 108; 108; 111]%N.
Proof. repeat split. Qed.
